(** * Certification-table pipeline of sieve-goldbach: a shallow embedding

    The development embeds the five summarisation scripts under [src/bin]:

    - [summarizelambdabound.py]     (module [LambdaBound])
    - [summarizeboundratio.py]      (module [BoundRatio])
    - [summarizelambdaboundcert.py] (module [LambdaBoundCert])
    - [summarizeboundscert.py]      (module [BoundsCert])
    - [summarizelambdaboundaudit.py] (module [Audit])

    and the integer parts of two scripts of the reductions paper
    (modules [Table1], [Table3]).

    Modelling conventions.

    - A Python [int] is a [Z]. A Python [float] is a binary64 number, the
      primitive [float] of Rocq: [+], [-], [*], [/], [abs], [math.sqrt] and
      the comparisons are the IEEE 754 operations, NaN and the infinities
      included. A comparison of an [int] with a [float] is exact, and an
      [int] that meets a [float] in arithmetic is first rounded to a
      [float] ([OverflowError] when it is too large).
    - Text is a [string] whose characters are the code points below 256.
      [float(s)] and [int(s)] are the builtins: the grammar CPython
      accepts (signs, digit-group underscores, [inf] and [nan], the white
      space each of them strips) and, for [float], the correctly rounded
      value.
    - [x ** 2] is what the platform's [pow] returns, which is not always
      the rounded product [x * x]: the function is a parameter, [pow2].
      [sorted] is a parameter as well, known to return its items
      rearranged. [sum] is the left-to-right sum of CPython up to 3.11.
    - A row yielded by [csv.DictReader] is a finite map from the column
      names of the header to fields; the field of a row that is shorter
      than the header is [None], and the fields of a row beyond the
      header are kept apart. [row.get(k, d)] is [get row k d].
    - An exception is a value of [exn] carried by the [result] monad; a
      loop whose termination depends on its arguments takes fuel and
      answers [None] when the fuel is exhausted.
    - File discovery, reading and writing are outside the model: a file is
      an [option table] ([None] when it does not exist) and a written table
      is the value handed to the writer. *)

From Stdlib Require Import ZArith QArith String Ascii Floats Lia.
From stdpp Require Import gmap strings list sorting.

Local Open Scope string_scope.
Local Open Scope list_scope.
Local Open Scope stdpp_scope.

(** ** The Python runtime the scripts rely on *)

Module Py.

Inductive exn :=
| ValueError
| ZeroDivisionError
| OverflowError
| AttributeError
| TypeError.

Inductive result (A : Type) :=
| Ok (a : A)
| Raise (e : exn).
Arguments Ok {A} a.
Arguments Raise {A} e.

Definition bind {A B} (m : result A) (k : A → result B) : result B :=
  match m with
  | Ok a => k a
  | Raise e => Raise e
  end.

(** *** Text *)

(** [str.isspace] on one character: the white space [str.strip()]
    removes. *)
Definition is_space (c : ascii) : bool :=
  let n := nat_of_ascii c in
  ((9 <=? n) && (n <=? 13) || (28 <=? n) && (n <=? 32)
   || (n =? 133) || (n =? 160))%nat.

Fixpoint lstrip_chars (cs : list ascii) : list ascii :=
  match cs with
  | c :: cs' => if is_space c then lstrip_chars cs' else cs
  | [] => []
  end.

Definition strip_chars (cs : list ascii) : list ascii :=
  rev (lstrip_chars (rev (lstrip_chars cs))).

Definition strip (s : string) : string :=
  string_of_list_ascii (strip_chars (list_ascii_of_string s)).

(** Truth value of a string: [if s] / [not s]. *)
Definition truthy (s : string) : bool :=
  match s with
  | EmptyString => false
  | String _ _ => true
  end.

(** [rows[start:stop]] for [0 <= start], [0 <= stop]. *)
Definition slice {A} (l : list A) (start stop : nat) : list A :=
  take (stop - start) (drop start l).

(** [l[i:]] for any integer [i]: a negative [i] counts from the end and
    is clamped at the start of the list. *)
Definition slice_from {A} (l : list A) (i : Z) : list A :=
  if (i <? 0)%Z then drop (Z.to_nat (Z.of_nat (length l) + i)) l
  else drop (Z.to_nat i) l.

(** *** The text a number is read from *)

(** The white space of C ([Py_ISSPACE]), which the number parsers skip at
    both ends. *)
Definition is_c_space (c : ascii) : bool :=
  let n := nat_of_ascii c in
  ((9 <=? n) && (n <=? 13) || (n =? 32))%nat.

(** What [float] and [int] do to a [str] before reading it: a character
    from 127 on becomes a blank when it is white space and is no part of a
    number otherwise. *)
Definition to_ascii (c : ascii) : option ascii :=
  if (nat_of_ascii c <? 127)%nat then Some c
  else if is_space c then Some " "%char
  else None.

Fixpoint lskip (cs : list ascii) : list ascii :=
  match cs with
  | c :: cs' => if is_c_space c then lskip cs' else cs
  | [] => []
  end.

Definition skip_spaces (cs : list ascii) : list ascii :=
  rev (lskip (rev (lskip cs))).

Definition digit_of (c : ascii) : option Z :=
  let n := nat_of_ascii c in
  if ((48 <=? n) && (n <=? 57))%nat then Some (Z.of_nat (n - 48)) else None.

Definition is_digit (c : ascii) : bool :=
  match digit_of c with
  | Some _ => true
  | None => false
  end.

Definition is_underscore (c : ascii) : bool := Ascii.eqb c "_".

(** Value of a run of digits read after [acc]; [None] at a non-digit. *)
Fixpoint digits (acc : Z) (cs : list ascii) : option Z :=
  match cs with
  | [] => Some acc
  | c :: cs' =>
      match digit_of c with
      | Some d => digits (10 * acc + d) cs'
      | None => None
      end
  end.

(** An optional leading sign: [(negative, rest)]. *)
Definition split_sign (cs : list ascii) : bool * list ascii :=
  match cs with
  | "-"%char :: cs' => (true, cs')
  | "+"%char :: cs' => (false, cs')
  | _ => (false, cs)
  end.

(** Digit-group underscores: one underscore may stand between two digits.
    [prev] is the character before [cs]. The result is the text without
    its underscores; [None] when one is misplaced. *)
Fixpoint drop_underscores (prev : option ascii) (cs : list ascii)
  : option (list ascii) :=
  match cs with
  | [] =>
      match prev with
      | Some p => if is_underscore p then None else Some []
      | None => Some []
      end
  | c :: cs' =>
      if is_underscore c then
        match prev with
        | Some p => if is_digit p then drop_underscores (Some c) cs' else None
        | None => None
        end
      else
        match prev with
        | Some p =>
            if is_underscore p && negb (is_digit c) then None
            else (c ::.) <$> drop_underscores (Some c) cs'
        | None => (c ::.) <$> drop_underscores (Some c) cs'
        end
  end.

(** *** [int(s)] *)

(** The most digits [int] reads ([sys.get_int_max_str_digits()]). *)
Definition int_max_str_digits : nat := 4300.

(** Digits with single underscores between them, not at either end. *)
Definition grouped_digits (cs : list ascii) : option Z :=
  match cs with
  | [] => None
  | c :: _ =>
      if is_underscore c then None
      else
        ds ← drop_underscores None cs;
        if (int_max_str_digits <? length ds)%nat then None
        else digits 0 ds
  end.

(** [int(s)] in base 10: surrounding white space, an optional sign and
    digits; [None] stands for [ValueError]. *)
Definition int (s : string) : option Z :=
  cs ← mapM to_ascii (list_ascii_of_string s);
  let '(neg, body) := split_sign (lskip cs) in
  z ← grouped_digits (rev (lskip (rev body)));
  Some (if neg then (- z)%Z else z).

(** *** Floats *)

(** The [float] nearest to the integer [n], exact ties going to the even
    neighbour ([float(n)]; the operand conversion of [-] and [/]). *)
Definition float_of_Z (n : Z) : result float :=
  match binary_normalize prec emax n 0 false with
  | S754_infinity _ => Raise OverflowError
  | f => Ok (SF2Prim f)
  end.

(** The same for an integer whose nearest float exists (written in the
    source as a constant). *)
Definition to_float (n : Z) : float :=
  SF2Prim (binary_normalize prec emax n 0 false).

(** The [float] nearest to [m * 10^e], for [0 <= m]. The two tests on the
    size of the number only spare the computation of a large power. *)
Definition float_of_decimal (neg : bool) (m e : Z) : float :=
  let bits := (Z.log2 m + 1)%Z in
  if (m =? 0)%Z then (if neg then neg_zero else zero)
  else if (0 <=? e)%Z && (1100 <? bits + 3 * e)%Z
  then (if neg then neg_infinity else infinity)
  else if (e <? 0)%Z && (bits + 3 * e <? -1100)%Z
  then (if neg then neg_zero else zero)
  else if (0 <=? e)%Z
  then SF2Prim (binary_normalize prec emax
                  (if neg then - (m * 10 ^ e) else m * 10 ^ e) 0 false)
  else
    let '(q, e', l) := SFdiv_core_binary prec emax m 0 (10 ^ (- e)) 0 in
    SF2Prim (binary_round_aux prec emax neg q e' l).

(** Cut [cs] at the first character satisfying [p]. *)
Fixpoint cut (p : ascii → bool) (cs : list ascii)
  : list ascii * option (list ascii) :=
  match cs with
  | [] => ([], None)
  | c :: cs' =>
      if p c then ([], Some cs')
      else let '(pre, post) := cut p cs' in (c :: pre, post)
  end.

Definition is_dot (c : ascii) : bool := Ascii.eqb c ".".
Definition is_exp (c : ascii) : bool := Ascii.eqb c "e" || Ascii.eqb c "E".

Definition lower (c : ascii) : ascii :=
  let n := nat_of_ascii c in
  if ((65 <=? n) && (n <=? 90))%nat then ascii_of_nat (n + 32) else c.

(** A run of at least one digit. *)
Definition some_digits (cs : list ascii) : option Z :=
  match cs with
  | [] => None
  | _ => digits 0 cs
  end.

(** The number after the sign: [inf], [infinity], [nan] in any case, or
    digits with an optional fractional part (at least one digit in all)
    and an optional exponent. *)
Definition unsigned_float (neg : bool) (body : list ascii) : option float :=
  let word := string_of_list_ascii (lower <$> body) in
  if String.eqb word "inf" || String.eqb word "infinity"
  then Some (if neg then neg_infinity else infinity)
  else if String.eqb word "nan" then Some nan
  else
    let '(mant, expo) := cut is_exp body in
    let '(ip, fp) := cut is_dot mant in
    let frac := default [] fp in
    m ← some_digits (ip ++ frac);
    e ← match expo with
        | None => Some 0%Z
        | Some ecs =>
            let '(eneg, ebody) := split_sign ecs in
            z ← some_digits ebody;
            Some (if eneg then (- z)%Z else z)
        end;
    Some (float_of_decimal neg m (e - Z.of_nat (length frac))).

(** [float(s)]; [None] stands for [ValueError]. *)
Definition float (s : string) : option float :=
  cs ← mapM to_ascii (list_ascii_of_string s);
  ds ← drop_underscores None cs;
  let '(neg, body) := split_sign (skip_spaces ds) in
  unsigned_float neg body.

(** *** Numbers *)

(** [n < x], [n == x], [n > x] for an [int] and a [float], exactly; a NaN
    compares with nothing. *)
Definition compare_Z_float (n : Z) (x : PrimFloat.float) : option comparison :=
  match Prim2SF x with
  | S754_nan => None
  | S754_infinity s => Some (if s then Gt else Lt)
  | S754_zero _ => Some (n ?= 0)%Z
  | S754_finite s m e =>
      let v := if s then Z.neg m else Z.pos m in
      Some (if (0 <=? e)%Z then (n ?= v * 2 ^ e)%Z
            else (n * 2 ^ (- e) ?= v)%Z)
  end.

Definition Z_le_float (n : Z) (x : PrimFloat.float) : bool :=
  match compare_Z_float n x with
  | Some Lt | Some Eq => true
  | _ => false
  end.

Definition Z_ge_float (n : Z) (x : PrimFloat.float) : bool :=
  match compare_Z_float n x with
  | Some Gt | Some Eq => true
  | _ => false
  end.

(** [x / y] on floats. *)
Definition truediv (x y : PrimFloat.float) : result PrimFloat.float :=
  if PrimFloat.eqb y 0 then Raise ZeroDivisionError else Ok (x / y)%float.

(** [math.sqrt]. *)
Definition math_sqrt (x : PrimFloat.float) : result PrimFloat.float :=
  if PrimFloat.ltb x 0 then Raise ValueError else Ok (PrimFloat.sqrt x).

(** [a / b] on integers: the float nearest to the quotient. *)
Definition int_truediv (a b : Z) : result PrimFloat.float :=
  if (b =? 0)%Z then Raise ZeroDivisionError
  else
    let neg := xorb (a <? 0)%Z (b <? 0)%Z in
    if (a =? 0)%Z then Ok (if neg then neg_zero else zero)
    else
      let '(q, e', l) :=
        SFdiv_core_binary prec emax (Z.abs a) 0 (Z.abs b) 0 in
      match binary_round_aux prec emax neg q e' l with
      | S754_infinity _ => Raise OverflowError
      | f => Ok (SF2Prim f)
      end.

(** The result of [sum] over floats: the integer [0] it starts from when
    there is nothing to add, otherwise the float sum taken from left to
    right. *)
Inductive number :=
| Int (n : Z)
| Float (x : PrimFloat.float).

Definition sum (xs : list PrimFloat.float) : number :=
  match xs with
  | [] => Int 0
  | _ => Float (foldl PrimFloat.add 0%float xs)
  end.

(** [total / count] for the result of [sum] and an integer. *)
Definition div_by_int (total : number) (count : Z) : result PrimFloat.float :=
  match total with
  | Int n => int_truediv n count
  | Float x => bind (float_of_Z count) (truediv x)
  end.

(** [x ** 2] for a platform whose [pow] returns [square a] for a finite
    [a] above zero other than one, and reports a range error on overflow
    only: the interpreter answers the special values itself, gives the
    rest to [pow] without its sign, and turns a result out of range into
    an [OverflowError]. *)
Definition checked_pow2 (square : PrimFloat.float → PrimFloat.float)
    (x : PrimFloat.float) : result PrimFloat.float :=
  match Prim2SF x with
  | S754_nan => Ok nan
  | S754_infinity _ => Ok infinity
  | S754_zero _ => Ok 0%float
  | S754_finite _ _ _ =>
      if PrimFloat.eqb (abs x) 1 then Ok 1%float
      else
        let r := square (abs x) in
        if PrimFloat.eqb r infinity then Raise OverflowError else Ok r
  end.

(** The exact value of a float that is a number. *)
Definition exact (x : PrimFloat.float) : option Q :=
  match Prim2SF x with
  | S754_zero _ => Some 0%Q
  | S754_finite s m e =>
      let v := if s then Z.neg m else Z.pos m in
      Some (if (0 <=? e)%Z then inject_Z (v * 2 ^ e)
            else Qmake v (Z.to_pos (2 ^ (- e))))
  | _ => None
  end.

(** A comprehension whose element expression may raise. *)
Fixpoint map_result {A B} (f : A → result B) (l : list A) : result (list B) :=
  match l with
  | [] => Ok []
  | x :: l' =>
      bind (f x) (λ y, bind (map_result f l') (λ ys, Ok (y :: ys)))
  end.

(** A field is text or [None]: truth value, [a or b], and [not a]. *)
Definition truthy_field (a : option string) : bool :=
  match a with
  | Some s => truthy s
  | None => false
  end.

Definition or_else (a b : option string) : option string :=
  if truthy_field a then a else b.

(** A float that is a number: [x == x], false of NaN alone. *)
Definition is_number (x : PrimFloat.float) : bool := PrimFloat.eqb x x.

(** How a script run ends: the table handed to the writer, [sys.exit(1)],
    or an exception nobody catches. *)
Inductive outcome (A : Type) :=
| Written (out : A)
| Exit1
| Uncaught (e : exn).
Arguments Written {A} out.
Arguments Exit1 {A}.
Arguments Uncaught {A} e.

End Py.

Notation "'let!' x ':=' m 'in' k" := (Py.bind m (λ x, k))
  (at level 10, x name, m at level 100, k at level 200, only parsing).

(** A row of [csv.DictReader]: for each column of the header the field of
    the row, [None] where the row is shorter than the header; and, where
    the row is longer, the fields beyond the header, which the reader
    files under the key [None]. [row.get(k, d)] is the field of the
    column [k], or [d] for a column the row does not have. *)
Record row := Row {
  named : gmap string (option string);
  rest : list string
}.

Definition get (r : row) (k d : string) : option string :=
  match named r !! k with
  | Some field => field
  | None => Some d
  end.

(** A table as [csv.DictReader] presents it: the header and the rows. *)
Record table := Table {
  fieldnames : list string;
  rows : list row
}.

(** ** Windowed extrema: the code shared by the two plotting summarisers *)

(** The four loop variables [min_lambda], [min_lambda_n], [max_lambda],
    [max_lambda_n]. *)
Record extrema := Extrema {
  min_val : option float;
  min_n : option Z;
  max_val : option float;
  max_n : option Z
}.

Definition no_extrema : extrema := Extrema None None None None.

(** [cur is None or v < cur] and [cur is None or v > cur]. *)
Definition below_cur (v : float) (cur : option float) : bool :=
  match cur with
  | None => true
  | Some m => PrimFloat.ltb v m
  end.

Definition above_cur (v : float) (cur : option float) : bool :=
  match cur with
  | None => true
  | Some m => PrimFloat.ltb m v
  end.

(** The two [if] statements that update the running minimum and maximum. *)
Definition track (e : extrema) (n_val : Z) (v : float) : extrema :=
  let e1 :=
    if below_cur v (min_val e)
    then Extrema (Some v) (Some n_val) (max_val e) (max_n e)
    else e in
  if above_cur v (max_val e1)
  then Extrema (min_val e1) (min_n e1) (Some v) (Some n_val)
  else e1.

(** One entry of [results]. *)
Record summary := Summary {
  alpha : float;
  n_min_lambda : option Z;
  min_lambda : option float;
  n_max_lambda : option Z;
  max_lambda : option float
}.

Section BatchLoop.

(** The scan of one batch: the [for row in batch] loop of either script. *)
Variable scan : list row → Py.result extrema.
Variable alpha_value : float.
Variable all_rows : list row.
Variable batch_size : nat.

(** [if min_lambda is not None or max_lambda is not None: results.append] *)
Definition emit (e : extrema) (results : list summary) : list summary :=
  if bool_decide (is_Some (min_val e)) || bool_decide (is_Some (max_val e))
  then results ++
       [Summary alpha_value (min_n e) (min_val e) (max_n e) (max_val e)]
  else results.

(** The [while batch_start >= 0] loop. [batch_start] never goes below
    zero ([max(0, _ - _)] is the truncated subtraction of [nat]). *)
Fixpoint batch_loop (fuel batch_start : nat) (results : list summary)
  : option (Py.result (list summary)) :=
  match fuel with
  | O => None
  | S fuel' =>
      let batch_end := (batch_start + batch_size) `min` length all_rows in
      let batch := Py.slice all_rows batch_start batch_end in
      match scan batch with
      | Py.Raise e => Some (Py.Raise e)
      | Py.Ok e =>
          let results' := emit e results in
          if (batch_start =? 0)%nat then Some (Py.Ok results')
          else batch_loop fuel' (batch_start - batch_size) results'
      end
  end.

(** The body of [process_file] after the rows are read; the enclosing
    [try ... except Exception: return []] turns an exception into the
    empty list. *)
Definition process_rows : option (list summary) :=
  let num_rows := length all_rows in
  if (num_rows =? 0)%nat then Some []
  else
    match batch_loop (S num_rows) (num_rows - batch_size) [] with
    | None => None
    | Some (Py.Ok results) => Some results
    | Some (Py.Raise _) => Some []
    end.

(** Every summary comes from the scan of one slice of the rows which
    recorded a minimum or a maximum. *)
Definition from_a_window (r : summary) : Prop :=
  ∃ start stop e,
    scan (Py.slice all_rows start stop) = Py.Ok e ∧
    (is_Some (min_val e) ∨ is_Some (max_val e)) ∧
    r = Summary alpha_value (min_n e) (min_val e) (max_n e) (max_val e).

End BatchLoop.

(** ** summarizelambdabound.py *)

Module LambdaBound.

Definition parse_lambda (value_str : option string) : option float :=
  match value_str with
  | None => None
  | Some s =>
      if negb (Py.truthy s)
         || String.eqb (Py.strip s) ""
         || String.eqb s "0.000000"
      then None
      else Py.float s
  end.

(** One turn of [for row in batch]; [int] may raise [ValueError]. *)
Definition scan_row (lambda_column : string) (e : extrema) (r : row)
  : Py.result extrema :=
  match parse_lambda (get r lambda_column "") with
  | None => Py.Ok e
  | Some lambda_val =>
      match Py.or_else (get r "n_0" "") (get r "n_1" "") with
      | None => Py.Ok e
      | Some n_val_str =>
          if negb (Py.truthy n_val_str) then Py.Ok e
          else
            match Py.int n_val_str with
            | None => Py.Raise Py.ValueError
            | Some n_val => Py.Ok (track e n_val lambda_val)
            end
      end
  end.

Fixpoint scan_from (lambda_column : string) (e : extrema)
    (batch : list row) : Py.result extrema :=
  match batch with
  | [] => Py.Ok e
  | r :: batch' =>
      let! e' := scan_row lambda_column e r in
      scan_from lambda_column e' batch'
  end.

Definition scan (lambda_column : string) (batch : list row)
  : Py.result extrema :=
  scan_from lambda_column no_extrema batch.

Definition batch_size : nat := 12.

Definition process_file (file_rows : list row)
    (alpha_value : float) (lambda_column : string) : option (list summary) :=
  process_rows (scan lambda_column) alpha_value file_rows batch_size.

End LambdaBound.

(** ** summarizeboundratio.py *)

Module BoundRatio.

Definition parse_float (value_str : option string) : option float :=
  match value_str with
  | None => None
  | Some s =>
      if negb (Py.truthy s) || String.eqb (Py.strip s) ""
      then None
      else Py.float s
  end.

(** [track] when the parsed value is defined. *)
Definition track_opt (e : extrema) (n_val : Z) (v : option float) : extrema :=
  match v with
  | None => e
  | Some x => track e n_val x
  end.

(** One turn of [for row in batch] on the pair (ratio extrema, lambda
    extrema); a blank or non-integer [n] skips the row. *)
Definition scan_row (st : extrema * extrema) (r : row) : extrema * extrema :=
  match get r "n" "" with
  | None => st
  | Some n_str =>
      if negb (Py.truthy n_str) then st
      else
        match Py.int n_str with
        | None => st
        | Some n_val =>
            (track_opt st.1 n_val (parse_float (get r "ratio" "")),
             track_opt st.2 n_val (parse_float (get r "lambda" "")))
        end
  end.

(** The lambda extrema are the ones [results] records. *)
Definition scan (batch : list row) : Py.result extrema :=
  Py.Ok (foldl scan_row (no_extrema, no_extrema) batch).2.

Definition process_file (file_rows : list row)
    (alpha_value : float) (batch_size : nat) : option (list summary) :=
  process_rows scan alpha_value file_rows batch_size.

End BoundRatio.

(** ** The cert-table builders: code common to both scripts *)

(** [nearest_lambda_with_bracket]: one turn of the loop on the pair
    [(below, above)]. The index, an [int], is compared with the target, a
    [float], exactly. *)
Definition bracket_step (target_n : float)
    (st : option (Z * float) * option (Z * float)) (p : Z * float)
  : option (Z * float) * option (Z * float) :=
  let below :=
    if Py.Z_le_float p.1 target_n then
      match st.1 with
      | None => Some p
      | Some b => if (p.1 >? b.1)%Z then Some p else st.1
      end
    else st.1 in
  let above :=
    if Py.Z_ge_float p.1 target_n then
      match st.2 with
      | None => Some p
      | Some a => if (p.1 <? a.1)%Z then Some p else st.2
      end
    else st.2 in
  (below, above).

(** The two distances are taken in floats: each index is rounded to a
    float before the subtraction. *)
Definition nearest_lambda_with_bracket (pairs : list (Z * float))
    (target_n : float) : Py.result (option float) :=
  match foldl (bracket_step target_n) (None, None) pairs with
  | (Some below, Some above) =>
      let! below_n := Py.float_of_Z below.1 in
      let! above_n := Py.float_of_Z above.1 in
      if PrimFloat.leb (abs (target_n - below_n)) (abs (above_n - target_n))
      then Py.Ok (Some below.2)
      else Py.Ok (Some above.2)
  | _ => Py.Ok None
  end.

Section TailStats.

(** [x ** 2], as the interpreter and the platform compute it. *)
Variable pow2 : float → Py.result float.

(** [tail_stats]; [count] is the integer given on the command line. *)
Definition tail_stats (pairs : list (Z * float)) (count : Z)
  : Py.result (option float * option float) :=
  if (Z.of_nat (length pairs) <? count)%Z then Py.Ok (None, None)
  else
    let tail := (Py.slice_from pairs (- count)).*2 in
    let! mean := Py.div_by_int (Py.sum tail) count in
    let! squares := Py.map_result (λ x, pow2 (x - mean)%float) tail in
    let! variance := Py.div_by_int (Py.sum squares) count in
    let! sd := Py.math_sqrt variance in
    Py.Ok (Some mean, Some sd).

End TailStats.

(** A field of the output table: the empty text, or a number printed with
    five decimals (the text [f"{value:.5f}"], kept symbolically). *)
Inductive cell :=
| Blank
| Fixed5 (value : float).

Definition fmt_value (value : option float) : cell :=
  match value with
  | None => Blank
  | Some v => Fixed5 v
  end.

Record cert_row := CertRow {
  cert_alpha : float;
  L11_lo : cell;
  L11_hi : cell;
  L13_lo : cell;
  L13_hi : cell;
  Lfinal_lo : cell;
  Lfinal_lo_std : cell;
  Lfinal_hi : cell;
  Lfinal_hi_std : cell
}.

(** The row appended when a series is empty. *)
Definition blank_row (alpha_val : float) : cert_row :=
  CertRow alpha_val Blank Blank Blank Blank Blank Blank Blank Blank.

(** One directory [alpha-<alpha_str>] of [output/], [alpha_str] being
    [name.split("alpha-")[1]], with the two files the patterns name in it
    ([None]: the file does not exist). *)
Record alpha_dir := AlphaDir {
  alpha_str : string;
  min_file : option table;
  max_file : option table
}.

Definition is_nil {A} (l : list A) : bool :=
  match l with
  | [] => true
  | _ => false
  end.

(** [sorted(items, key=...)] on the list of the pairs (key, item): the
    builtin returns the items rearranged. Which arrangement it returns is
    left open; it need not be an ordered one when a key is NaN. *)
Class SortedBuiltin (A : Type) := {
  sorted : list (float * A) → list A;
  sorted_permutes : ∀ keyed, sorted keyed ≡ₚ keyed.*2
}.

Section CertMain.

Context `{sorter : !SortedBuiltin alpha_dir}.

Variable load_lambda_pairs : table → Py.result (list (Z * float)).
Variable tail_count : Z.
Variable pow2 : float → Py.result float.

(** One turn of [for alpha_dir in alpha_dirs]. [480.0 ** 2] and
    [5760.0 ** 2] are the constants 230400.0 and 33177600.0. *)
Definition visit (cert_rows : list cert_row) (d : alpha_dir)
  : Py.result (list cert_row) :=
  match Py.float (alpha_str d) with
  | None => Py.Ok cert_rows
  | Some alpha_val =>
      match min_file d, max_file d with
      | Some min_f, Some max_f =>
          let! min_pairs := load_lambda_pairs min_f in
          let! max_pairs := load_lambda_pairs max_f in
          if is_nil min_pairs || is_nil max_pairs
          then Py.Ok (cert_rows ++ [blank_row alpha_val])
          else
            let! target_l11 := Py.truediv 230400 (2 * alpha_val) in
            let! target_l13 := Py.truediv 33177600 (2 * alpha_val) in
            let! l11_lo := nearest_lambda_with_bracket min_pairs target_l11 in
            let! l11_hi := nearest_lambda_with_bracket max_pairs target_l11 in
            let! l13_lo := nearest_lambda_with_bracket min_pairs target_l13 in
            let! l13_hi := nearest_lambda_with_bracket max_pairs target_l13 in
            let! lo := tail_stats pow2 min_pairs tail_count in
            let! hi := tail_stats pow2 max_pairs tail_count in
            Py.Ok (cert_rows ++
                   [CertRow alpha_val
                      (fmt_value l11_lo) (fmt_value l11_hi)
                      (fmt_value l13_lo) (fmt_value l13_hi)
                      (fmt_value lo.1) (fmt_value lo.2)
                      (fmt_value hi.1) (fmt_value hi.2)])
      | _, _ => Py.Ok cert_rows
      end
  end.

Fixpoint visit_all (cert_rows : list cert_row) (alpha_dirs : list alpha_dir)
  : Py.result (list cert_row) :=
  match alpha_dirs with
  | [] => Py.Ok cert_rows
  | d :: alpha_dirs' =>
      let! cert_rows' := visit cert_rows d in
      visit_all cert_rows' alpha_dirs'
  end.

(** The keys [sorted] computes before it compares any: [float] of every
    directory's name, a [ValueError] when one is no number. *)
Definition sort_keys (dirs : list alpha_dir)
  : option (list (float * alpha_dir)) :=
  mapM (λ d, (λ key, (key, d)) <$> Py.float (alpha_str d)) dirs.

(** [main] from [alpha_dirs = sorted(...)] on, for the directories [dirs]
    of [output/] whose names begin with [alpha-], in the order the file
    system lists them. *)
Definition cert_main (dirs : list alpha_dir) : Py.outcome (list cert_row) :=
  match sort_keys dirs with
  | None => Py.Uncaught Py.ValueError
  | Some keyed =>
      match visit_all [] (sorted keyed) with
      | Py.Raise e => Py.Uncaught e
      | Py.Ok [] => Py.Exit1
      | Py.Ok cert_rows => Py.Written cert_rows
      end
  end.

End CertMain.

(** ** summarizelambdaboundcert.py *)

Module LambdaBoundCert.

Definition parse_float (value_str : option string) : option float :=
  match value_str with
  | None => None
  | Some s =>
      let s := Py.strip s in
      if String.eqb s "" || String.eqb s "0.000000" then None
      else Py.float s
  end.

Definition has (fields : list string) (name : string) : bool :=
  bool_decide (name ∈ fields).

Definition detect_columns (fields : list string)
  : option string * list string :=
  let lambda_col :=
    if has fields "Lambda_min" then Some "Lambda_min"
    else if has fields "Lambda_max" then Some "Lambda_max"
    else None in
  let n_cols :=
    (if has fields "n_0" then ["n_0"] else []) ++
    (if has fields "n_1" then ["n_1"] else []) ++
    (if has fields "n" then ["n"] else []) in
  (lambda_col, n_cols).

(** [(row.get(col, "") or "").strip()] *)
Definition index_text (r : row) (col : string) : string :=
  Py.strip (default "" (Py.or_else (get r col "") (Some ""))).

(** [for col in n_cols]: the first column holding an integer. *)
Fixpoint first_int (r : row) (n_cols : list string) : option Z :=
  match n_cols with
  | [] => None
  | col :: n_cols' =>
      let n_str := index_text r col in
      if Py.truthy n_str then
        match Py.int n_str with
        | Some n_val => Some n_val
        | None => first_int r n_cols'
        end
      else first_int r n_cols'
  end.

(** One turn of [for row in reader]. *)
Definition load_row (lambda_col : string) (n_cols : list string)
    (pairs : list (Z * float)) (r : row) : list (Z * float) :=
  match parse_float (get r lambda_col "") with
  | None => pairs
  | Some lambda_val =>
      match first_int r n_cols with
      | None => pairs
      | Some n_val => pairs ++ [(n_val, lambda_val)]
      end
  end.

Definition load_lambda_pairs (f : table) : Py.result (list (Z * float)) :=
  match detect_columns (fieldnames f) with
  | (Some lambda_col, (_ :: _) as n_cols) =>
      Py.Ok (foldl (load_row lambda_col n_cols) [] (rows f))
  | _ => Py.Ok []
  end.

Definition main `{sorter : !SortedBuiltin alpha_dir} := cert_main load_lambda_pairs.

End LambdaBoundCert.

(** ** summarizeboundscert.py *)

Module BoundsCert.

Definition parse_float (value_str : option string) : option float :=
  match value_str with
  | None => None
  | Some s =>
      let s := Py.strip s in
      if String.eqb s "" then None else Py.float s
  end.

(** One turn of [for row in reader]; [.strip()] on the [None] of a short
    row is an [AttributeError]. *)
Definition load_row (pairs : list (Z * float)) (r : row)
  : Py.result (list (Z * float)) :=
  match get r "n" "" with
  | None => Py.Raise Py.AttributeError
  | Some n_field =>
      let n_val := Py.strip n_field in
      match parse_float (get r "lambda" "") with
      | None => Py.Ok pairs
      | Some lambda_val =>
          if negb (Py.truthy n_val) then Py.Ok pairs
          else
            match Py.int n_val with
            | None => Py.Ok pairs
            | Some n_int => Py.Ok (pairs ++ [(n_int, lambda_val)])
            end
      end
  end.

Fixpoint load_rows (pairs : list (Z * float)) (file_rows : list row)
  : Py.result (list (Z * float)) :=
  match file_rows with
  | [] => Py.Ok pairs
  | r :: file_rows' =>
      let! pairs' := load_row pairs r in
      load_rows pairs' file_rows'
  end.

Definition load_lambda_pairs (f : table) : Py.result (list (Z * float)) :=
  load_rows [] (rows f).

Definition main `{sorter : !SortedBuiltin alpha_dir} := cert_main load_lambda_pairs.

End BoundsCert.

(** ** summarizelambdaboundaudit.py *)

Module Audit.

(** [TARGET_ALPHAS]; the literal [0.00106494895768] is the float
    [0x1.172b83c7d40fcp-10]. *)
Definition TARGET_ALPHAS : list float :=
  [ 1; 1 / Py.to_float 2; 1 / Py.to_float 4; 1 / Py.to_float 8;
    1 / Py.to_float 16; 1 / Py.to_float 32; 1 / Py.to_float 64;
    1 / Py.to_float 128; 1 / Py.to_float 256; 1 / Py.to_float 512;
    0x1.172b83c7d40fcp-10; 1 / Py.to_float 1024 ]%float.

(** The default of [--tolerance], [1e-12]. *)
Definition default_tolerance : float := 0x1.19799812dea11p-40%float.

(** [any(abs(alpha_val - target) <= tolerance for target in TARGET_ALPHAS)] *)
Definition near_target (tolerance alpha_val : float) : bool :=
  existsb (λ target, PrimFloat.leb (abs (alpha_val - target)) tolerance)
          TARGET_ALPHAS.

(** One turn of [for row in rows]; [float(None)], for a row that is too
    short to have an alpha, is a [TypeError]. *)
Definition keep_row (tolerance : float) (kept : list row) (r : row)
  : Py.result (list row) :=
  match get r "alpha" "" with
  | None => Py.Raise Py.TypeError
  | Some alpha_str =>
      match Py.float alpha_str with
      | None => Py.Ok kept
      | Some alpha_val =>
          if near_target tolerance alpha_val then Py.Ok (kept ++ [r])
          else Py.Ok kept
      end
  end.

Fixpoint keep_rows (tolerance : float) (kept : list row)
    (file_rows : list row) : Py.result (list row) :=
  match file_rows with
  | [] => Py.Ok kept
  | r :: file_rows' =>
      let! kept' := keep_row tolerance kept r in
      keep_rows tolerance kept' file_rows'
  end.

(** [csv.DictWriter] refuses ([ValueError]) a row with a key that is not
    one of its field names: a name of another header, or the key [None]
    of the fields beyond the header. *)
Definition writable (names : list string) (r : row) : bool :=
  bool_decide (Forall (λ k, k ∈ names) (map_to_list (named r)).*1) &&
  is_nil (rest r).

(** [main]: [cert_file] is [None] when the file is not found; a file
    without a header has no field names. The written value is the pair
    given to [csv.DictWriter]: the field names and the kept rows. *)
Definition main (tolerance : float) (cert_file : option table)
  : Py.outcome (list string * list row) :=
  match cert_file with
  | None => Py.Exit1
  | Some f =>
      if is_nil (fieldnames f) then Py.Exit1
      else
        match keep_rows tolerance [] (rows f) with
        | Py.Raise e => Py.Uncaught e
        | Py.Ok kept =>
            if is_nil kept then Py.Exit1
            else if forallb (writable (fieldnames f)) kept
            then Py.Written (fieldnames f, kept)
            else Py.Uncaught Py.ValueError
        end
  end.

(** The cells [csv.DictWriter] prints for one row under [names]: the
    field, the empty text for [None]. *)
Definition cells (names : list string) (r : row) : list string :=
  (λ k, default "" (get r k "")) <$> names.

End Audit.

(** ** The alpha grid and the drivers of the plotting summarisers *)

(** [s.startswith(prefix)], [sub in s] and [s.replace(old, new)] (for a
    non-empty [old]: the occurrences are replaced from left to right, an
    occurrence being skipped over once replaced). *)
Fixpoint starts_with (prefix s : string) : bool :=
  match prefix, s with
  | EmptyString, _ => true
  | String a prefix', String b s' => Ascii.eqb a b && starts_with prefix' s'
  | String _ _, EmptyString => false
  end.

Fixpoint contains (sub s : string) : bool :=
  starts_with sub s ||
  match s with
  | EmptyString => false
  | String _ s' => contains sub s'
  end.

Fixpoint replace_from (skip : nat) (old new s : string) : string :=
  match s with
  | EmptyString => EmptyString
  | String c s' =>
      match skip with
      | S skip' => replace_from skip' old new s'
      | O =>
          if starts_with old s
          then new +:+ replace_from (String.length old - 1) old new s'
          else String c (replace_from 0 old new s')
      end
  end.

Definition replace (old new s : string) : string := replace_from 0 old new s.

(** [POWER_OF_2_ALPHAS], after its [reverse()]; the list and
    [format_alpha] are the same in both plotting summarisers. *)
Definition POWER_OF_2_ALPHAS : list float :=
  rev ((λ i : nat, (1 / Py.to_float (2 ^ Z.of_nat i))%float) <$> seq 0 11).

Section PlottingDrivers.

(** [str(alpha)], the fallback of [format_alpha] off the grid. *)
Variable str : float → string.

Definition format_alpha (alpha : float) : string :=
  if PrimFloat.eqb alpha 1.0 then "1"
  else if PrimFloat.eqb alpha 0.5 then "0.5"
  else if PrimFloat.eqb alpha 0.25 then "0.25"
  else if PrimFloat.eqb alpha 0.125 then "0.125"
  else if PrimFloat.eqb alpha 0.0625 then "0.0625"
  else if PrimFloat.eqb alpha 0.03125 then "0.03125"
  else if PrimFloat.eqb alpha 0.015625 then "0.015625"
  else if PrimFloat.eqb alpha 0.0078125 then "0.0078125"
  else if PrimFloat.eqb alpha 0.00390625 then "0.00390625"
  else if PrimFloat.eqb alpha 0.001953125 then "0.001953125"
  else if PrimFloat.eqb alpha 0.0009765625 then "0.0009765625"
  else str alpha.

(** The directory [output/]: a directory name gives, when the directory
    exists, its files by name; a file is the list of its data rows. *)
Definition directory : Type :=
  string → option (list row).

(** One turn of [for alpha in POWER_OF_2_ALPHAS]: the directory
    [alpha-<tag>], the file named by the pattern in it, [process_file] and
    [all_results.extend]. [None] when [process_file] does not return. *)
Definition collect
    (process_file : list row → float → option (list summary))
    (output : string → option directory) (file_pattern : string)
    (all_results : option (list summary)) (alpha : float)
  : option (list summary) :=
  acc ← all_results;
  let alpha_str := format_alpha alpha in
  match output ("alpha-" +:+ alpha_str) with
  | None => Some acc
  | Some alpha_dir =>
      match alpha_dir
              (replace "--=ALPHA=--" ("-" +:+ alpha_str +:+ "-") file_pattern)
      with
      | None => Some acc
      | Some file_rows =>
          results ← process_file file_rows alpha;
          Some (acc ++ results)
      end
  end.

Definition collect_all
    (process_file : list row → float → option (list summary))
    (output : string → option directory) (file_pattern : string)
  : option (list summary) :=
  foldl (collect process_file output file_pattern) (Some [])
        POWER_OF_2_ALPHAS.

(** The end of both [main] functions: the summary is written when it has
    a row. *)
Definition write_results (all_results : list summary)
  : Py.outcome (list summary) :=
  if is_nil all_results then Py.Exit1 else Py.Written all_results.

(** [main] of summarizelambdabound.py; [output_dir] is [None] when the
    directory [output/] does not exist. *)
Definition lambdabound_main (output_dir : option (string → option directory))
    (file_pattern : string) : option (Py.outcome (list summary)) :=
  match output_dir with
  | None => Some Py.Exit1
  | Some output =>
      if negb (contains "--=ALPHA=--" file_pattern) then Some Py.Exit1
      else
        let lambda_column :=
          if contains "lambdaboundmin" file_pattern then Some "Lambda_min"
          else if contains "lambdaboundmax" file_pattern then Some "Lambda_max"
          else None in
        match lambda_column with
        | None => Some Py.Exit1
        | Some column =>
            write_results <$>
            collect_all
              (λ file_rows alpha,
                 LambdaBound.process_file file_rows alpha column)
              output file_pattern
        end
  end.

(** [main] of summarizeboundratio.py; a missing [output/] has no
    directory in it. *)
Definition boundratio_main (output : string → option directory)
    (file_pattern : string) (batch_size : nat)
  : option (Py.outcome (list summary)) :=
  if negb (contains "--=ALPHA=--" file_pattern) then Some Py.Exit1
  else
    write_results <$>
    collect_all
      (λ file_rows alpha, BoundRatio.process_file file_rows alpha batch_size)
      output file_pattern.

End PlottingDrivers.

(** ** papers/pcgc-goldbach-reductions/scripts/table1_efflocmod.py *)

Module Table1.

(** One turn of [for p in primes] on the pair [(result, product)]; the
    dictionary [result] is a finite map. *)
Definition efflocmod_step (base_prime : Z) (st : gmap Z Z * Z) (p : Z)
  : gmap Z Z * Z :=
  if (p <? base_prime)%Z then (<[p := 1%Z]> st.1, st.2)
  else if (p =? base_prime)%Z
  then (<[p := (base_prime - 1)%Z]> st.1, (base_prime - 1)%Z)
  else (<[p := (st.2 * (p - 1))%Z]> st.1, (st.2 * (p - 1))%Z).

Definition calculate_efflocmod (primes : list Z) (base_prime : Z)
  : gmap Z Z :=
  (foldl (efflocmod_step base_prime) (∅, 1%Z) primes).1.

(** The list [primes] and the dictionary [expected] of [main]. *)
Definition primes : list Z :=
  [2; 3; 5; 7; 11; 13; 17; 19; 23; 29; 31; 37; 41]%Z.

Definition expected : gmap Z (Z * Z) :=
  list_to_map
    [ (2, (1, 1)); (3, (2, 1)); (5, (8, 4)); (7, (48, 24));
      (11, (480, 240)); (13, (5760, 2880)); (17, (92160, 46080));
      (19, (1658880, 829440)); (23, (36495360, 18247680));
      (29, (1021870080, 510935040)); (31, (30656102400, 15328051200));
      (37, (1103619686400, 551809843200));
      (41, (44144787456000, 22072393728000)) ]%Z.

(** The flag [all_match] at the end of [main]; [None] would be a
    [KeyError]. *)
Definition all_match : option bool :=
  let efflocmod_3 := calculate_efflocmod primes 3 in
  let efflocmod_5 := calculate_efflocmod primes 5 in
  foldl (λ acc p,
           flag ← acc;
           exp ← expected !! p;
           calc3 ← efflocmod_3 !! p;
           calc5 ← efflocmod_5 !! p;
           Some (if negb (calc3 =? exp.1)%Z || negb (calc5 =? exp.2)%Z
                 then false else flag))
        (Some true) primes.

End Table1.

(** ** papers/pcgc-goldbach-reductions/scripts/table3_c_values.py:
    the integer part *)

Module Table3.

Definition PRIMES : list Z :=
  [3; 5; 7; 11; 13; 17; 19; 23; 29; 31; 37; 41; 43; 47; 53; 59]%Z.

(** One turn of [for i in range(start_idx, len(PRIMES))] on
    [(efflocmod_values, product)]; [first] stands for [i == start_idx]. *)
Definition values_step (st : list (Z * Z) * Z * bool) (p : Z)
  : list (Z * Z) * Z * bool :=
  let '(efflocmod_values, product, first) := st in
  let product := if first then (p - 1)%Z else (product * (p - 1))%Z in
  (efflocmod_values ++ [(p, product)], product, false).

Definition values_of (ps : list Z) : list (Z * Z) :=
  (foldl values_step ([], 1%Z, true) ps).1.1.

Definition calculate_efflocmod_values (three_divides_n : bool)
  : list (Z * Z) :=
  let start_idx := if three_divides_n then 0%nat else 1%nat in
  values_of (drop start_idx PRIMES).

End Table3.


(** ** Views used to state the properties *)

(** The test [keep_row] applies to one row of the audit filter. *)
Definition audit_selects (tolerance : float) (r : row) : bool :=
  match get r "alpha" "" with
  | Some alpha_str =>
      match Py.float alpha_str with
      | None => false
      | Some alpha_val => Audit.near_target tolerance alpha_val
      end
  | None => false
  end.

(** The pairs (sample index, metric) a batch feeds to [track], in scan
    order: for summarizelambdabound.py the rows with a defined lambda and a
    non-empty integer index ... *)
Definition lambda_candidate (lambda_column : string) (r : row)
  : option (Z * float) :=
  match LambdaBound.parse_lambda (get r lambda_column "") with
  | None => None
  | Some lambda_val =>
      match Py.or_else (get r "n_0" "") (get r "n_1" "") with
      | None => None
      | Some n_val_str =>
          if Py.truthy n_val_str
          then (λ n_val, (n_val, lambda_val)) <$> Py.int n_val_str
          else None
      end
  end.

(** ... and for summarizeboundratio.py the rows with an integer [n] and a
    defined lambda. *)
Definition ratio_candidate (r : row) : option (Z * float) :=
  match get r "n" "" with
  | None => None
  | Some n_str =>
      if Py.truthy n_str then
        match Py.int n_str with
        | None => None
        | Some n_val =>
            (λ v, (n_val, v)) <$> BoundRatio.parse_float (get r "lambda" "")
        end
      else None
  end.

(** The pair one row adds to the series of summarizelambdaboundcert.py and
    of summarizeboundscert.py. *)
Definition lambda_cert_pair (lambda_col : string) (n_cols : list string)
    (r : row) : option (Z * float) :=
  match LambdaBoundCert.parse_float (get r lambda_col "") with
  | None => None
  | Some lambda_val =>
      (λ n_val, (n_val, lambda_val)) <$> LambdaBoundCert.first_int r n_cols
  end.

Definition bounds_cert_pair (r : row) : option (Z * float) :=
  match BoundsCert.parse_float (get r "lambda" "") with
  | None => None
  | Some lambda_val =>
      let n_val := Py.strip (default "" (get r "n" "")) in
      if Py.truthy n_val
      then (λ n_int, (n_int, lambda_val)) <$> Py.int n_val
      else None
  end.

(** The values [batch_start] takes in the loop, and the windows
    [(batch_start, batch_end)] it slices, in the order of the scans. *)
Fixpoint window_starts (fuel batch_size batch_start : nat) : list nat :=
  match fuel with
  | O => []
  | S fuel' =>
      batch_start ::
      (if (batch_start =? 0)%nat then []
       else window_starts fuel' batch_size (batch_start - batch_size))
  end.

Definition windows (batch_size num_rows : nat) : list (nat * nat) :=
  if (num_rows =? 0)%nat then []
  else (λ start, (start, (start + batch_size) `min` num_rows)) <$>
       window_starts (S num_rows) batch_size (num_rows - batch_size).

(** What the loop appends for the windows [ws] when the scan of a batch
    yields [scan_value batch]. *)
Definition emit_windows (scan_value : list row → extrema)
    (alpha_value : float) (all_rows : list row)
    (results : list summary) (ws : list (nat * nat)) : list summary :=
  foldl (λ acc w,
           emit alpha_value (scan_value (Py.slice all_rows w.1 w.2)) acc)
        results ws.

Definition track_all (e : extrema) (cs : list (Z * float)) : extrema :=
  foldl (λ e c, track e c.1 c.2) e cs.

(** The order of the floats, as relations. *)
Definition float_lt (x y : float) : Prop := PrimFloat.ltb x y = true.
Definition float_le (x y : float) : Prop := PrimFloat.leb x y = true.
Definition float_number (x : float) : Prop := Py.is_number x = true.

(** An insertion sort by key: one function that returns its items
    rearranged, as [sorted] does. *)
Fixpoint insert_by_key {A} (x : float * A) (l : list (float * A))
  : list (float * A) :=
  match l with
  | [] => [x]
  | y :: l' =>
      if PrimFloat.ltb x.1 y.1 then x :: l else y :: insert_by_key x l'
  end.

Definition insertion_sorted {A} (l : list (float * A)) : list A :=
  (foldr insert_by_key [] l).*2.

Lemma insert_by_key_permutes {A} (x : float * A) l :
  insert_by_key x l ≡ₚ x :: l.
Proof.
  induction l as [| y l IH]; [done |]. cbn [insert_by_key].
  destruct (PrimFloat.ltb x.1 y.1); [done |].
  rewrite IH. apply Permutation_swap.
Qed.

Lemma insertion_sorted_permutes {A} (keyed : list (float * A)) :
  insertion_sorted keyed ≡ₚ keyed.*2.
Proof.
  unfold insertion_sorted. apply fmap_Permutation.
  induction keyed as [| x keyed IH]; [done |].
  cbn [foldr]. by rewrite insert_by_key_permutes, IH.
Qed.

(** A [sorted] for the examples. *)
Definition insertion_sorter : SortedBuiltin alpha_dir :=
  {| sorted := insertion_sorted;
     sorted_permutes := insertion_sorted_permutes |}.

Module Spec.






(** AuditFilter's allow-list in the spec's words: the eleven powers of two
    from 1 to 1/1024 and one more literal constant, 0.00106494895768. *)
Definition allow_list : list float :=
  ((λ k : nat, (1 / Py.to_float (2 ^ Z.of_nat k))%float) <$> seq 0 11) ++
  [0x1.172b83c7d40fcp-10%float].

(** A row is retained when its alpha column parses to a float whose
    distance to some allow-listed value, taken in floats, is within the
    tolerance. *)
Definition retained (tolerance : float) (r : row) : Prop :=
  ∃ alpha_str alpha_val target,
    get r "alpha" "" = Some alpha_str ∧
    Py.float alpha_str = Some alpha_val ∧
    target ∈ allow_list ∧
    PrimFloat.leb (abs (alpha_val - target)) tolerance = true.

(** The same test on the exact values: the difference of the two numbers,
    not rounded, is within the tolerance on either side. *)
Definition within_exactly (tolerance alpha_val target : float) : bool :=
  match Py.exact tolerance, Py.exact alpha_val, Py.exact target with
  | Some t, Some a, Some b => Qle_bool (a - b) t && Qle_bool (b - a) t
  | _, _, _ => false
  end.

(** [p] occurs in [pairs], and no earlier pair carries its sample index. *)
Definition first_at (pairs : list (Z * float)) (p : Z * float) : Prop :=
  ∃ pre post, pairs = pre ++ p :: post ∧ ∀ q, q ∈ pre → q.1 ≠ p.1.

(** BracketedNearestSelector: [below] is the pair with the largest sample
    index at most [T], [above] the pair with the smallest sample index at
    least [T]. *)
Definition is_below (pairs : list (Z * float)) (T : float) (b : Z * float)
  : Prop :=
  first_at pairs b ∧ Py.Z_le_float b.1 T = true ∧
  ∀ q, q ∈ pairs → Py.Z_le_float q.1 T = true → (q.1 <= b.1)%Z.

Definition is_above (pairs : list (Z * float)) (T : float) (a : Z * float)
  : Prop :=
  first_at pairs a ∧ Py.Z_ge_float a.1 T = true ∧
  ∀ q, q ∈ pairs → Py.Z_ge_float q.1 T = true → (a.1 <= q.1)%Z.

(** The value the selector returns for a bracket: each index is rounded
    to a float, and the two distances are taken and compared in floats. *)
Definition nearer (T : float) (b a : Z * float) : Py.result (option float) :=
  let! below_n := Py.float_of_Z b.1 in
  let! above_n := Py.float_of_Z a.1 in
  if PrimFloat.leb (abs (T - below_n)) (abs (above_n - T))
  then Py.Ok (Some b.2)
  else Py.Ok (Some a.2).


(** TailStatistics: the last [K] metric values in series order, their
    arithmetic mean and their population standard deviation (the squared
    deviations summed and divided by the number of values), each
    operation being the one of the floats. *)
Definition last_values (pairs : list (Z * float)) (K : nat) : list float :=
  (drop (length pairs - K) pairs).*2.

Definition mean (xs : list float) : Py.result float :=
  Py.div_by_int (Py.sum xs) (Z.of_nat (length xs)).

Definition pstdev (pow2 : float → Py.result float) (xs : list float)
  : Py.result float :=
  let! m := mean xs in
  let! squares := Py.map_result (λ x, pow2 (x - m)%float) xs in
  let! variance := Py.div_by_int (Py.sum squares) (Z.of_nat (length xs)) in
  Py.math_sqrt variance.

(** CertTableBuilder: a directory has a row when both its files exist. *)
Definition has_both (d : alpha_dir) : Prop :=
  is_Some (min_file d) ∧ is_Some (max_file d).

(** The row of a directory: it carries the alpha the directory is named
    by, and is blank when either series is empty. *)
Definition row_of (load : table → Py.result (list (Z * float)))
    (d : alpha_dir) (r : cert_row) : Prop :=
  Py.float (alpha_str d) = Some (cert_alpha r) ∧
  ∀ min_f max_f,
    min_file d = Some min_f → max_file d = Some max_f →
    load min_f = Py.Ok [] ∨ load max_f = Py.Ok [] →
    r = blank_row (cert_alpha r).

End Spec.

Global Instance has_both_dec d : Decision (Spec.has_both d).
Proof. unfold Spec.has_both. apply _. Defined.

(** Inputs used in the examples. *)
Module Sample.

Definition empty_table : table := Table ["n"; "lambda"] [].

(** A directory whose lower file is missing. *)
Definition dir_quarter_missing : alpha_dir :=
  AlphaDir "0.25" None (Some empty_table).

(** A directory with both files, neither holding a data row. *)
Definition dir_half_empty : alpha_dir :=
  AlphaDir "0.5" (Some empty_table) (Some empty_table).


(** A file of two data rows, the lambdas in the column [lambda_col]. *)
Definition series_table (lambda_col : string) : table :=
  Table ["n"; lambda_col]
        [ Row (<["n" := Some "100000"]> (<[lambda_col := Some "1.5"]> ∅)) [];
          Row (<["n" := Some "200000"]> (<[lambda_col := Some "2.5"]> ∅)) [] ].



Definition dir_one_ratio : alpha_dir :=
  AlphaDir "1" (Some (series_table "lambda")) (Some (series_table "lambda")).

(** The row of the directory for the alpha 1 with a tail of two values. *)
Definition row_one : cert_row :=
  CertRow 1 (Fixed5 1.5) (Fixed5 1.5) Blank Blank
          (Fixed5 2) (Fixed5 0.5) (Fixed5 2) (Fixed5 0.5).

(** A row of a lambdaboundmin file and a row of a boundratio file. *)
Definition lambda_row (n l : string) : row :=
  Row (<["n_0" := Some n]> (<["Lambda_min" := Some l]> ∅)) [].

Definition ratio_row (n l : string) : row :=
  Row (<["n" := Some n]> (<["lambda" := Some l]> ∅)) [].

(** Thirteen rows, one more than the batch size of summarizelambdabound.py;
    only the seventh has a defined lambda. *)
Definition thirteen_rows : list row :=
  [ lambda_row "1" "0.000000"; lambda_row "2" "0.000000";
    lambda_row "3" "0.000000"; lambda_row "4" "0.000000";
    lambda_row "5" "0.000000"; lambda_row "6" "0.000000";
    lambda_row "7" "2.5";      lambda_row "8" "0.000000";
    lambda_row "9" "0.000000"; lambda_row "10" "0.000000";
    lambda_row "11" "0.000000"; lambda_row "12" "0.000000";
    lambda_row "13" "0.000000" ].

(** Three rows for a batch size of 2; only the second has a lambda. *)
Definition three_rows : list row :=
  [ ratio_row "1" ""; ratio_row "2" "1.5"; ratio_row "3" "" ].

(** Two rows, the first with a sample index that is no integer. *)
Definition bad_index_rows : list row :=
  [ lambda_row "abc" "1.5"; lambda_row "10" "2.5" ].

Definition bad_index_ratio_rows : list row :=
  [ ratio_row "abc" "1.5"; ratio_row "10" "2.5" ].

(** Two rows with the same lambda. *)
Definition tied_rows : list row :=
  [ ratio_row "1" "2.5"; ratio_row "2" "2.5" ].



(** A cert table of three rows; the alpha of the second is not on the
    allow-list of the audit filter. *)
Definition cert_line (a l : string) : row :=
  Row (<["alpha" := Some a]> (<["L11_lo" := Some l]> ∅)) [].

Definition cert_table : table :=
  Table ["alpha"; "L11_lo"]
        [ cert_line "0.5" "1.00000"; cert_line "0.3" "";
          cert_line "1" "2.00000" ].

(** The same header over a row that stops before its alpha field. *)
Definition short_line : row :=
  Row (<["alpha" := None]> (<["L11_lo" := Some "1.00000"]> ∅)) [].

Definition short_table : table :=
  Table ["L11_lo"; "alpha"] [short_line].

(** A header of one column over a row of two fields. *)
Definition long_line : row := Row (<["alpha" := Some "0.5"]> ∅) ["1.00000"].

Definition long_table : table := Table ["alpha"] [long_line].

(** A row on the allow-list and a longer row whose alpha is 0.3. *)
Definition mixed_table : table :=
  Table ["alpha"]
        [ Row (<["alpha" := Some "0.5"]> ∅) [];
          Row (<["alpha" := Some "0.3"]> ∅) ["1.00000"] ].

(** A platform [pow] that returns the rounded product for a square. *)
Definition square (a : float) : float := (a * a)%float.

(** Twelve pairs with the metric [0.1]. *)
Definition tenths : list (Z * float) :=
  (λ i : nat, (Z.of_nat i, 0x1.999999999999ap-4%float)) <$> seq 1 12.

(** Two opposite metrics of large magnitude, [1e200] and [-1e200]. *)
Definition opposite_pairs : list (Z * float) :=
  [ (1%Z, 0x1.4e718d7d7625ap+664%float);
    (2%Z, (-0x1.4e718d7d7625ap+664)%float) ].

(** The text [1.5] followed by the character of code 28, which
    [str.strip] removes and [float] does not accept. *)
Definition padded_with_a_separator : string :=
  "1.5" ++ String (ascii_of_nat 28) "".

(** A directory [output/] in which the directory of the alpha 1 alone
    exists, with the three sample rows in every file of it. *)
Definition output_with_alpha_one (name : string) : option directory :=
  if String.eqb name "alpha-1" then Some (λ _, Some three_rows)
  else None.

End Sample.

(** What the loop of [nearest_lambda_with_bracket] knows of the pairs it
    has seen. *)
Definition bracket_inv (T : float) (seen : list (Z * float))
    (st : option (Z * float) * option (Z * float)) : Prop :=
  match st.1 with
  | None => ∀ q, q ∈ seen → Py.Z_le_float q.1 T = false
  | Some b => Spec.is_below seen T b
  end ∧
  match st.2 with
  | None => ∀ q, q ∈ seen → Py.Z_ge_float q.1 T = false
  | Some a => Spec.is_above seen T a
  end.

(** ** Views used to state the further properties *)

(** The extrema a scan yields, [no_extrema] standing in when it raises. *)
Definition value_of (scan : list row → Py.result extrema)
    (batch : list row) : extrema :=
  match scan batch with
  | Py.Ok e => e
  | Py.Raise _ => no_extrema
  end.

(** The batch the loop slices at [batch_start = start]. *)
Definition scanned (all_rows : list row) (batch_size start : nat)
  : list row :=
  Py.slice all_rows start ((start + batch_size) `min` length all_rows).

(** The mean and the spread of a cert row are blank together. *)
Definition tail_fields_paired (r : cert_row) : Prop :=
  (Lfinal_lo r = Blank ↔ Lfinal_lo_std r = Blank) ∧
  (Lfinal_hi r = Blank ↔ Lfinal_hi_std r = Blank).

(** The record of index [i] is in the window [w]. *)
Definition in_window (i : nat) (w : nat * nat) : Prop :=
  (w.1 ≤ i)%nat ∧ (i < w.2)%nat.

(** A row on which the scan of summarizelambdabound.py raises: its lambda
    is defined and its index text is neither empty nor an integer. *)
Definition bad_index (lambda_column : string) (r : row) : Prop :=
  LambdaBound.parse_lambda (get r lambda_column "") ≠ None ∧
  ∃ n_val_str,
    Py.or_else (get r "n_0" "") (get r "n_1" "") = Some n_val_str ∧
    n_val_str ≠ "" ∧ Py.int n_val_str = None.

(** The product of [q - 1] over a list of primes, and the primes of a list
    from [base] up to [p]. *)
Definition pred_product (qs : list Z) : Z :=
  foldr (λ q acc, ((q - 1) * acc)%Z) 1%Z qs.

Definition from_base_to (base p : Z) (primes : list Z) : list Z :=
  filter (λ q, (base ≤ q ≤ p)%Z) primes.

(** * Properties *)

(** ** The runtime model *)

Lemma truthy_false s : Py.truthy s = false ↔ s = "".
Proof. destruct s; simpl; split; congruence. Qed.

Lemma blank_test s :
  negb (Py.truthy s) || String.eqb (Py.strip s) "" = true ↔ Py.strip s = "".
Proof.
  rewrite orb_true_iff, negb_true_iff, truthy_false, String.eqb_eq.
  split; [intros [-> | H]; [reflexivity | exact H] | auto].
Qed.

Example int_examples :
  Py.int " 10 " = Some 10%Z ∧ Py.int "-7" = Some (-7)%Z ∧
  Py.int "1_000" = Some 1000%Z ∧ Py.int "abc" = None ∧
  Py.int "12.0" = None ∧ Py.int "" = None ∧ Py.int "1__0" = None.
Proof. repeat split; reflexivity. Qed.

Example float_examples :
  Py.float "1.5" = Some 1.5%float ∧ Py.float " 2.5e3 " = Some 2500%float ∧
  Py.float "1_0.5" = Some 10.5%float ∧ Py.float "-inf" = Some neg_infinity ∧
  Py.float "NaN" = Some nan ∧ Py.float "1e400" = Some infinity ∧
  Py.float "1.2.3" = None ∧ Py.float "." = None ∧ Py.float "" = None ∧
  Py.float "x" = None.
Proof. repeat split; vm_compute; reflexivity. Qed.

Lemma float_zero6 : Py.float "0.000000" = Some 0%float.
Proof. vm_compute. reflexivity. Qed.

(** *** The order of the floats *)

Ltac sf_cases :=
  repeat match goal with
         | x : spec_float |- _ => destruct x as [[] | [] | | [] ? ?]
         end;
  cbn [SFcompare SFabs CompOpp]; try congruence.

Ltac cmp_cases :=
  repeat match goal with
         | |- context [Z.compare ?a ?b] =>
             destruct (Z.compare_spec a b); try lia; subst
         | H : context [Z.compare ?a ?b] |- _ =>
             destruct (Z.compare_spec a b); try lia; subst
         | |- context [Pos.compare_cont Eq ?a ?b] =>
             change (Pos.compare_cont Eq a b) with (Pos.compare a b);
             destruct (Pos.compare_spec a b); try lia; subst
         | H : context [Pos.compare_cont Eq ?a ?b] |- _ =>
             change (Pos.compare_cont Eq a b) with (Pos.compare a b) in H;
             destruct (Pos.compare_spec a b); try lia; subst
         end;
  cbn [CompOpp] in *; try congruence.

Lemma SFcompare_refl x : x ≠ S754_nan → SFcompare x x = Some Eq.
Proof. intros H. sf_cases; cmp_cases. Qed.


Lemma SFcompare_flip x y c :
  SFcompare x y = Some c → SFcompare y x = Some (CompOpp c).
Proof. sf_cases; intros [= <-]; f_equal; cmp_cases. Qed.

Lemma SFcompare_lt_trans x y z :
  SFcompare x y = Some Lt → SFcompare y z = Some Lt →
  SFcompare x z = Some Lt.
Proof. sf_cases; intros; cmp_cases. Qed.

Lemma SFcompare_eq_l x y z c :
  SFcompare x y = Some Eq → SFcompare y z = Some c → SFcompare x z = Some c.
Proof. sf_cases; intros; cmp_cases. Qed.

Lemma SFcompare_eq_r x y z c :
  SFcompare x y = Some c → SFcompare y z = Some Eq → SFcompare x z = Some c.
Proof. sf_cases; intros; cmp_cases. Qed.

Lemma SFcompare_abs x t c :
  SFcompare (SFabs x) t = Some c → c ≠ Gt →
  SFcompare (S754_zero false) t = Some Lt ∨
  SFcompare (S754_zero false) t = Some Eq.
Proof. sf_cases; auto; intros [= <-]; congruence. Qed.

Lemma ltb_compare x y :
  PrimFloat.ltb x y = true ↔ SFcompare (Prim2SF x) (Prim2SF y) = Some Lt.
Proof.
  rewrite FloatAxioms.ltb_spec. unfold SFltb.
  destruct (SFcompare _ _) as [[] |]; split; congruence.
Qed.

Lemma leb_compare x y :
  PrimFloat.leb x y = true ↔
  SFcompare (Prim2SF x) (Prim2SF y) = Some Lt ∨
  SFcompare (Prim2SF x) (Prim2SF y) = Some Eq.
Proof.
  rewrite FloatAxioms.leb_spec. unfold SFleb.
  destruct (SFcompare _ _) as [[] |]; split; try congruence; auto;
    intros [? | ?]; congruence.
Qed.

Lemma is_number_spec x : Py.is_number x = true ↔ Prim2SF x ≠ S754_nan.
Proof.
  unfold Py.is_number. rewrite FloatAxioms.eqb_spec. unfold SFeqb. split.
  - intros H Hnan. by rewrite Hnan in H.
  - intros H. by rewrite SFcompare_refl.
Qed.


Lemma ltb_trans x y z :
  PrimFloat.ltb x y = true → PrimFloat.ltb y z = true →
  PrimFloat.ltb x z = true.
Proof. rewrite !ltb_compare. apply SFcompare_lt_trans. Qed.

Lemma ltb_leb x y : PrimFloat.ltb x y = true → PrimFloat.leb x y = true.
Proof. rewrite ltb_compare, leb_compare. auto. Qed.


Lemma leb_ltb_trans x y z :
  PrimFloat.leb x y = true → PrimFloat.ltb y z = true →
  PrimFloat.ltb x z = true.
Proof.
  rewrite !ltb_compare, leb_compare. intros [Hxy | Hxy] Hyz.
  - by apply (SFcompare_lt_trans _ _ _ Hxy).
  - by apply (SFcompare_eq_l _ _ _ _ Hxy).
Qed.

Lemma leb_trans x y z :
  PrimFloat.leb x y = true → PrimFloat.leb y z = true →
  PrimFloat.leb x z = true.
Proof.
  intros Hxy Hyz. apply leb_compare in Hyz as Hyz'.
  destruct Hyz' as [Hlt | Heq].
  - apply ltb_leb. apply (leb_ltb_trans x y z); [done |].
    by apply ltb_compare.
  - apply leb_compare in Hxy as [Hxy | Hxy]; apply leb_compare.
    + left. by apply (SFcompare_eq_r _ _ _ _ Hxy).
    + right. by apply (SFcompare_eq_l _ _ _ _ Hxy).
Qed.

Lemma leb_refl x : Py.is_number x = true → PrimFloat.leb x x = true.
Proof.
  intros Hx%is_number_spec. apply leb_compare. right.
  by apply SFcompare_refl.
Qed.


Lemma leb_not_ltb x y :
  PrimFloat.leb x y = true → PrimFloat.ltb y x = false.
Proof.
  rewrite leb_compare. intros Hle.
  destruct (PrimFloat.ltb y x) eqn:Hlt; [| done].
  apply ltb_compare, SFcompare_flip in Hlt. cbn in Hlt.
  destruct Hle; congruence.
Qed.



(** An absolute value is at most [t] only when [t] is zero or more. *)
Lemma abs_leb_nonneg x t :
  PrimFloat.leb (abs x) t = true → PrimFloat.leb 0 t = true.
Proof.
  rewrite !leb_compare, FloatAxioms.abs_spec.
  change (Prim2SF 0) with (S754_zero false).
  intros [H | H]; by apply (SFcompare_abs _ _ _ H).
Qed.

(** ** C7: the sentinel rule by input flavour *)

(** C7. The lambda-flavoured parsers ([parse_lambda] of
    summarizelambdabound.py and [parse_float] of
    summarizelambdaboundcert.py) give no value exactly on blank text, on the
    sentinel ["0.000000"] and on text [float] rejects; the ratio-flavoured
    parsers ([parse_float] of summarizeboundratio.py and of
    summarizeboundscert.py) give no value exactly on blank text and on text
    [float] rejects, and read ["0.000000"] as the number 0. The missing
    field of a short row has no value for any of them. *)
Theorem sentinel_only_for_lambda_inputs :
  (∀ s, LambdaBound.parse_lambda (Some s) = None ↔
        Py.strip s = "" ∨ s = "0.000000" ∨ Py.float s = None) ∧
  (∀ s, LambdaBoundCert.parse_float (Some s) = None ↔
        Py.strip s = "" ∨ Py.strip s = "0.000000" ∨
        Py.float (Py.strip s) = None) ∧
  (∀ s, BoundRatio.parse_float (Some s) = None ↔
        Py.strip s = "" ∨ Py.float s = None) ∧
  (∀ s, BoundsCert.parse_float (Some s) = None ↔
        Py.strip s = "" ∨ Py.float (Py.strip s) = None) ∧
  LambdaBound.parse_lambda (Some "0.000000") = None ∧
  LambdaBoundCert.parse_float (Some "0.000000") = None ∧
  BoundRatio.parse_float (Some "0.000000") = Some 0%float ∧
  BoundsCert.parse_float (Some "0.000000") = Some 0%float ∧
  LambdaBound.parse_lambda None = None ∧
  LambdaBoundCert.parse_float None = None ∧
  BoundRatio.parse_float None = None ∧
  BoundsCert.parse_float None = None.
Proof.
  repeat apply conj; try reflexivity; try exact float_zero6.
  - intros s. unfold LambdaBound.parse_lambda.
    destruct (negb (Py.truthy s) || String.eqb (Py.strip s) "") eqn:Hb.
    + apply blank_test in Hb. simpl. tauto.
    + destruct (String.eqb s "0.000000") eqn:Hs; simpl.
      * apply String.eqb_eq in Hs. tauto.
      * apply String.eqb_neq in Hs.
        assert (Py.strip s ≠ "") by (rewrite <- blank_test; congruence).
        tauto.
  - intros s. unfold LambdaBoundCert.parse_float.
    destruct (String.eqb (Py.strip s) "") eqn:Hb; simpl.
    + apply String.eqb_eq in Hb. tauto.
    + apply String.eqb_neq in Hb.
      destruct (String.eqb (Py.strip s) "0.000000") eqn:Hs.
      * apply String.eqb_eq in Hs. tauto.
      * apply String.eqb_neq in Hs. tauto.
  - intros s. unfold BoundRatio.parse_float.
    destruct (negb (Py.truthy s) || String.eqb (Py.strip s) "") eqn:Hb.
    + apply blank_test in Hb. tauto.
    + assert (Py.strip s ≠ "") by (rewrite <- blank_test; congruence).
      tauto.
  - intros s. unfold BoundsCert.parse_float.
    destruct (String.eqb (Py.strip s) "") eqn:Hb; simpl.
    + apply String.eqb_eq in Hb. tauto.
    + apply String.eqb_neq in Hb. tauto.
Qed.

(** ** C8, C10: the audit filter *)

Lemma target_alphas_allow_list : Audit.TARGET_ALPHAS ≡ₚ Spec.allow_list.
Proof.
  unfold Audit.TARGET_ALPHAS, Spec.allow_list.
  cbn [seq fmap list_fmap app Z.of_nat Pos.of_succ_nat Pos.succ Z.pow Z.pow_pos
       Pos.iter Z.mul Pos.mul].
  change (1 / Py.to_float 1)%float with 1%float.
  do 10 apply Permutation_skip. apply Permutation_swap.
Qed.

Lemma near_target_spec tolerance alpha_val :
  Audit.near_target tolerance alpha_val = true ↔
  ∃ target, target ∈ Spec.allow_list ∧
            PrimFloat.leb (abs (alpha_val - target)) tolerance = true.
Proof.
  unfold Audit.near_target. rewrite existsb_exists.
  split; intros (t & Ht & Hd); exists t.
  - apply list_elem_of_In in Ht. rewrite target_alphas_allow_list in Ht.
    by split.
  - split; [| done].
    apply list_elem_of_In. by rewrite target_alphas_allow_list.
Qed.

Lemma audit_selects_spec tolerance r :
  audit_selects tolerance r = true ↔ Spec.retained tolerance r.
Proof.
  unfold audit_selects, Spec.retained.
  destruct (get r "alpha" "") as [s |]; cycle 1.
  { split; [discriminate | intros (s & a & t & [=] & _)]. }
  destruct (Py.float s) as [a |] eqn:Hs.
  - rewrite near_target_spec. split.
    + intros (t & Ht & Hd). by exists s, a, t.
    + intros (s' & a' & t & [= <-] & Ha & Ht & Hd).
      rewrite Hs in Ha. injection Ha as <-. by exists t.
  - split; [discriminate |].
    intros (s' & a' & t & [= <-] & Ha & _). congruence.
Qed.

(** The accumulation loop is a filter, unless a row has no alpha field. *)
Lemma keep_rows_ok tolerance file_rows kept :
  Forall (λ r, is_Some (get r "alpha" "")) file_rows →
  Audit.keep_rows tolerance kept file_rows =
  Py.Ok (kept ++ filter (λ r, audit_selects tolerance r = true) file_rows).
Proof.
  intros Hall. revert kept.
  induction Hall as [| r file_rows [s Hs] _ IH]; intros kept.
  - by rewrite filter_nil, app_nil_r.
  - cbn [Audit.keep_rows]. unfold Audit.keep_row.
    assert (Hsel : audit_selects tolerance r =
                   match Py.float s with
                   | Some a => Audit.near_target tolerance a
                   | None => false
                   end) by (unfold audit_selects; by rewrite Hs).
    rewrite filter_cons, Hs.
    destruct (Py.float s) as [a |];
      [destruct (Audit.near_target tolerance a) |]; cbn [Py.bind].
    + rewrite IH, decide_True by done. by rewrite <- app_assoc.
    + by rewrite IH, decide_False by (by rewrite Hsel).
    + by rewrite IH, decide_False by (by rewrite Hsel).
Qed.

Lemma keep_rows_raises tolerance file_rows kept :
  ¬ Forall (λ r, is_Some (get r "alpha" "")) file_rows →
  Audit.keep_rows tolerance kept file_rows = Py.Raise Py.TypeError.
Proof.
  revert kept. induction file_rows as [| r file_rows IH]; intros kept Hnot.
  - destruct Hnot. constructor.
  - cbn [Audit.keep_rows]. unfold Audit.keep_row.
    destruct (get r "alpha" "") as [s |] eqn:Hs; [| done].
    assert (Hrest : ¬ Forall (λ r, is_Some (get r "alpha" "")) file_rows).
    { intros Hall. apply Hnot. constructor; [by rewrite Hs | done]. }
    destruct (Py.float s) as [a |];
      [destruct (Audit.near_target tolerance a) |]; cbn [Py.bind];
      by apply IH.
Qed.

Lemma audit_main_cases tolerance f :
  Audit.main tolerance (Some f) =
  let kept := filter (λ r, audit_selects tolerance r = true) (rows f) in
  if is_nil (fieldnames f) then Py.Exit1
  else if decide (Forall (λ r, is_Some (get r "alpha" "")) (rows f))
  then if is_nil kept then Py.Exit1
       else if forallb (Audit.writable (fieldnames f)) kept
       then Py.Written (fieldnames f, kept)
       else Py.Uncaught Py.ValueError
  else Py.Uncaught Py.TypeError.
Proof.
  unfold Audit.main. cbn zeta.
  destruct (is_nil (fieldnames f)); [done |].
  destruct (decide _) as [Hall | Hnot].
  - by rewrite keep_rows_ok.
  - by rewrite keep_rows_raises.
Qed.

Lemma is_nil_true {A} (l : list A) : is_nil l = true ↔ l = [].
Proof. destruct l; simpl; split; congruence. Qed.

Lemma filter_nil_iff {A} (P : A → Prop) `{!∀ x, Decision (P x)} (l : list A) :
  filter P l = [] ↔ ∀ x, x ∈ l → ¬ P x.
Proof.
  split.
  - intros Hnil x Hx HP. by eapply filter_nil_not_elem_of.
  - intros Hall. induction l as [| y l IH]; [done |].
    rewrite filter_cons, decide_False by (apply Hall; left).
    apply IH. intros x Hx. apply Hall. by right.
Qed.

Lemma forallb_false_elem {A} (p : A → bool) (l : list A) :
  forallb p l = false ↔ ∃ x, x ∈ l ∧ p x = false.
Proof.
  induction l as [| y l IH]; cbn.
  - split; [done | by intros (x & ?%elem_of_nil & _)].
  - rewrite andb_false_iff, IH. split.
    + intros [Hy | (x & Hx & Hp)]; [exists y | exists x];
        (split; [| done]); [left | by right].
    + intros (x & [-> | Hx]%elem_of_cons & Hp); [by left | right; eauto].
Qed.

(** C8 as stated fails in two ways. The distance is taken in floats: for
    the tolerance just below 1/1024 and the alpha 8e-20 the rounded
    difference from 1/1024 is the tolerance itself, so the row is kept,
    although the exact distance from every allow-listed value exceeds the
    tolerance. And a run in which no row matches need not end with exit
    status 1: a row too short to have an alpha field ends it with a
    [TypeError]; nor is a matching row always written: one with more
    fields than the header ends the run with the [ValueError] of the
    writer. *)
Lemma audit_keeps_a_row_beyond_the_tolerance :
  Audit.main 0x1.fffffffffffffp-11
    (Some (Table ["alpha"; "L11_lo"] [Sample.cert_line "8e-20" ""])) =
  Py.Written (["alpha"; "L11_lo"], [Sample.cert_line "8e-20" ""]) ∧
  Py.float "8e-20" = Some 0x1.79ca10c924223p-64%float ∧
  existsb (Spec.within_exactly 0x1.fffffffffffffp-11 0x1.79ca10c924223p-64)
          Spec.allow_list = false ∧
  Audit.main Audit.default_tolerance (Some Sample.short_table) =
  Py.Uncaught Py.TypeError ∧
  Audit.main Audit.default_tolerance (Some Sample.long_table) =
  Py.Uncaught Py.ValueError.
Proof. repeat split; vm_compute; reflexivity. Qed.

(** C8 (amended: the distance is the one computed in floats, and an
    exception may escape). Whatever the tolerance and the input, the
    constant list of the script is the allow-list of the spec (twelve
    values: the eleven powers of two from 1 to 1/1024 and
    0.00106494895768); when the filter writes a table, its rows are among
    the input rows, and a row of the input is written exactly when its
    alpha field parses to a float whose distance to an allow-listed value,
    computed in floats, is within the tolerance; the run ends with exit
    status 1 exactly when the file is missing, has no header, or every row
    has its alpha field and none matches. Two exceptions escape and no
    other: the [TypeError] of a row that has no alpha field, and the
    [ValueError] of the writer for a matching row that has more fields
    than the header. The default tolerance is 1e-12. *)
Theorem audit_filter_is_subset_within_tolerance
    (tolerance : float) (cert_file : option table) :
  Audit.TARGET_ALPHAS ≡ₚ Spec.allow_list ∧
  length Audit.TARGET_ALPHAS = 12 ∧
  Py.float "0.00106494895768" = Some 0x1.172b83c7d40fcp-10%float ∧
  Py.float "1e-12" = Some Audit.default_tolerance ∧
  (∀ names kept,
     Audit.main tolerance cert_file = Py.Written (names, kept) →
     ∃ f, cert_file = Some f ∧ names = fieldnames f ∧ kept ⊆ rows f ∧
          ∀ r, r ∈ kept ↔ r ∈ rows f ∧ Spec.retained tolerance r) ∧
  (Audit.main tolerance cert_file = Py.Exit1 ↔
     cert_file = None ∨
     ∃ f, cert_file = Some f ∧
          (fieldnames f = [] ∨
           Forall (λ r, is_Some (get r "alpha" "")) (rows f) ∧
           ∀ r, r ∈ rows f → ¬ Spec.retained tolerance r)) ∧
  (∀ e, Audit.main tolerance cert_file = Py.Uncaught e ↔
     ∃ f, cert_file = Some f ∧ fieldnames f ≠ [] ∧
          (e = Py.TypeError ∧ (∃ r, r ∈ rows f ∧ get r "alpha" "" = None) ∨
           e = Py.ValueError ∧
           Forall (λ r, is_Some (get r "alpha" "")) (rows f) ∧
           ∃ r, r ∈ rows f ∧ Spec.retained tolerance r ∧
                Audit.writable (fieldnames f) r = false)).
Proof.
  split; [exact target_alphas_allow_list |]. split; [reflexivity |].
  split; [vm_compute; reflexivity |].
  split; [vm_compute; reflexivity |].
  destruct cert_file as [f |]; cycle 1.
  { split; [intros names kept [=] |]. split; [split; auto |].
    intros e. split; [intros [=] | by intros (f & [=] & _)]. }
  rewrite audit_main_cases. cbn zeta.
  set (kept0 := filter (λ r, audit_selects tolerance r = true) (rows f)).
  assert (Hmem : ∀ r, r ∈ kept0 ↔ r ∈ rows f ∧ Spec.retained tolerance r).
  { intros r. unfold kept0.
    rewrite list_elem_of_filter, audit_selects_spec. tauto. }
  assert (Hnil : kept0 = [] ↔
                 ∀ r, r ∈ rows f → ¬ Spec.retained tolerance r).
  { unfold kept0. rewrite filter_nil_iff.
    split; intros H r Hr; specialize (H r Hr);
      by rewrite audit_selects_spec in *. }
  destruct (is_nil (fieldnames f)) eqn:Hhdr.
  { apply is_nil_true in Hhdr.
    split; [intros names kept [=] |]. split.
    - split; [| done]. intros _. right. exists f. auto.
    - intros e. split; [intros [=] |].
      by intros (f' & [= <-] & Hne & _). }
  assert (Hfields : fieldnames f ≠ [])
    by (rewrite <- is_nil_true; congruence).
  destruct (decide (Forall _ (rows f))) as [Hall | Hshort]; cycle 1.
  { split; [intros names kept [=] |]. split.
    - split; [intros [=] |].
      intros [[=] | (f' & [= <-] & [Hf | [Hf _]])]; done.
    - intros e. split.
      + intros [= <-]. exists f. split; [done |]. split; [done |]. left.
        split; [done |].
        apply not_Forall_Exists in Hshort; [| apply _].
        apply Exists_exists in Hshort as (r & Hr & Hnone).
        exists r. split; [done |].
        destruct (get r "alpha" "") eqn:Hg; [| done].
        exfalso. apply Hnone. cbn beta. rewrite Hg. by eexists.
      + intros (f' & [= <-] & _ & [[-> _] | (_ & Hall & _)]); done. }
  assert (Hno_short : ¬ ∃ r, r ∈ rows f ∧ get r "alpha" "" = None).
  { intros (r & Hr & Hnone).
    rewrite Forall_forall in Hall. specialize (Hall r Hr).
    rewrite Hnone in Hall. by destruct Hall. }
  destruct (is_nil kept0) eqn:Hkept.
  { apply is_nil_true in Hkept.
    split; [intros names kept [=] |]. split.
    - split; [| done]. intros _. right. exists f. split; [done |]. right.
      split; [done |]. by apply Hnil.
    - intros e. split; [intros [=] |].
      intros (f' & [= <-] & _ & [[_ Hr] | (_ & _ & r & Hr & Hret & _)]);
        exfalso; [by apply Hno_short | by apply (proj1 Hnil Hkept r)]. }
  assert (kept0 ≠ []) by (rewrite <- is_nil_true; congruence).
  assert (Hsome : ¬ ∀ r, r ∈ rows f → ¬ Spec.retained tolerance r)
    by (by rewrite <- Hnil).
  destruct (forallb (Audit.writable (fieldnames f)) kept0) eqn:Hwrite.
  - split.
    { intros names kept [= <- <-]. exists f. split; [done |].
      split; [done |]. split; [| exact Hmem].
      intros r Hr. by apply Hmem in Hr as [? _]. }
    split.
    + split; [intros [=] |].
      intros [[=] | (f' & [= <-] & [Hf | [_ Hf]])]; done.
    + intros e. split; [intros [=] |].
      intros (f' & [= <-] & _ & [[_ Hr] | (_ & _ & r & Hr & Hret & Hw)]);
        exfalso; [by apply Hno_short |].
      rewrite forallb_forall in Hwrite.
      rewrite Hwrite in Hw; [done |]. apply list_elem_of_In, Hmem. done.
  - split; [intros names kept [=] |]. split.
    + split; [intros [=] |].
      intros [[=] | (f' & [= <-] & [Hf | [_ Hf]])]; done.
    + intros e. split; cycle 1.
      { intros (f' & [= <-] & _ & [[_ Hr] | [-> _]]); [| done].
        exfalso. by apply Hno_short. }
      intros [= <-]. exists f. split; [done |]. split; [done |]. right.
      split; [done |]. split; [done |].
      apply forallb_false_elem in Hwrite as (r & [Hr Hret]%Hmem & Hw).
      by exists r.
Qed.

(** C10. When the audit filter writes a table for the file [f], the field
    names are those of the input header, the written rows are a
    subsequence of the input rows (the same rows, in the same relative
    order), and so are the lines of cells printed for them. *)
Theorem audit_writes_rows_unchanged
    (tolerance : float) (f : table) names kept :
  Audit.main tolerance (Some f) = Py.Written (names, kept) →
  names = fieldnames f ∧
  kept `sublist_of` rows f ∧
  (Audit.cells names <$> kept)
    `sublist_of` (Audit.cells (fieldnames f) <$> rows f).
Proof.
  rewrite audit_main_cases. cbn zeta.
  destruct (is_nil (fieldnames f)); [discriminate |].
  destruct (decide _); [| discriminate].
  destruct (is_nil _); [discriminate |].
  destruct (forallb _ _); [| discriminate].
  intros [= <- <-].
  assert (Hsub : filter (λ r, audit_selects tolerance r = true) (rows f)
                   `sublist_of` rows f) by apply sublist_filter.
  repeat split; [exact Hsub |]. by apply fmap_sublist.
Qed.

(** Evaluation of the filter on the sample cert table. *)
Lemma sample_cert_table_filtered :
  Audit.main Audit.default_tolerance (Some Sample.cert_table) =
  Py.Written (["alpha"; "L11_lo"],
              [ Sample.cert_line "0.5" "1.00000";
                Sample.cert_line "1" "2.00000" ]).
Proof. vm_compute. reflexivity. Qed.

Lemma audit_writes_rows_unchanged_witness :
  ["alpha"; "L11_lo"] = fieldnames Sample.cert_table ∧
  [ Sample.cert_line "0.5" "1.00000"; Sample.cert_line "1" "2.00000" ]
    `sublist_of` rows Sample.cert_table ∧
  (Audit.cells ["alpha"; "L11_lo"] <$>
     [ Sample.cert_line "0.5" "1.00000"; Sample.cert_line "1" "2.00000" ])
    `sublist_of`
    (Audit.cells (fieldnames Sample.cert_table) <$> rows Sample.cert_table).
Proof.
  apply (audit_writes_rows_unchanged Audit.default_tolerance
           Sample.cert_table).
  exact sample_cert_table_filtered.
Defined.

(** ** C5: the bracketed nearest selector *)

Lemma first_at_elem pairs p : Spec.first_at pairs p → p ∈ pairs.
Proof. intros (pre & post & -> & _). apply elem_of_app. right. left. Qed.

Lemma first_at_snoc pairs p q :
  Spec.first_at pairs p → Spec.first_at (pairs ++ [q]) p.
Proof.
  intros (pre & post & -> & Hpre). exists pre, (post ++ [q]).
  split; [by rewrite <- app_assoc | exact Hpre].
Qed.

Lemma first_at_last pairs p :
  (∀ q, q ∈ pairs → q.1 ≠ p.1) → Spec.first_at (pairs ++ [p]) p.
Proof. intros H. by exists pairs, []. Qed.

Lemma first_at_unique pairs p p' :
  Spec.first_at pairs p → Spec.first_at pairs p' → p.1 = p'.1 → p = p'.
Proof.
  intros (pre & post & -> & Hpre) (pre' & post' & Heq & Hpre') Hidx.
  revert pre' Heq Hpre'. induction pre as [| x pre IH]; intros pre' Heq Hpre'.
  - destruct pre' as [| y pre']; simplify_eq/=; [done |].
    exfalso. apply (Hpre' y); [left | done].
  - destruct pre' as [| y pre']; simplify_eq/=.
    + exfalso. apply (Hpre p'); [left | done].
    + apply (IH (λ q Hq, Hpre q (list_elem_of_further _ _ _ Hq)) pre');
        [done |]. intros q Hq. apply Hpre'. by right.
Qed.



Lemma bracket_step_inv T seen st p :
  bracket_inv T seen st → bracket_inv T (seen ++ [p]) (bracket_step T st p).
Proof.
  destruct st as [below above]. intros [Hb Ha]. simpl in Hb, Ha.
  unfold bracket_step, bracket_inv. cbn [fst snd]. split.
  - destruct (Py.Z_le_float p.1 T) eqn:Hle.
    + destruct below as [b |].
      * destruct Hb as (Hfirst & HbT & Hmax).
        destruct (Z.gtb_spec p.1 b.1) as [Hgt | Hngt].
        -- split; [| split; [done |]].
           ++ apply first_at_last. intros q Hq Heq.
              specialize (Hmax q Hq). rewrite Heq in Hmax.
              specialize (Hmax Hle). lia.
           ++ intros q [Hq | ->%list_elem_of_singleton]%elem_of_app HqT;
                [specialize (Hmax q Hq HqT) |]; lia.
        -- split; [by apply first_at_snoc | split; [done |]].
           intros q [Hq | ->%list_elem_of_singleton]%elem_of_app HqT;
             [by apply Hmax | lia].
      * split; [| split; [done |]].
        -- apply first_at_last. intros q Hq Heq. specialize (Hb q Hq).
           rewrite Heq in Hb. congruence.
        -- intros q [Hq | ->%list_elem_of_singleton]%elem_of_app HqT;
             [specialize (Hb q Hq); congruence | lia].
    + destruct below as [b |].
      * destruct Hb as (Hfirst & HbT & Hmax).
        split; [by apply first_at_snoc | split; [done |]].
        intros q [Hq | ->%list_elem_of_singleton]%elem_of_app HqT;
          [by apply Hmax | congruence].
      * intros q [Hq | ->%list_elem_of_singleton]%elem_of_app; auto.
  - destruct (Py.Z_ge_float p.1 T) eqn:Hge.
    + destruct above as [a |].
      * destruct Ha as (Hfirst & HaT & Hmin).
        destruct (Z.ltb_spec p.1 a.1) as [Hlt | Hnlt].
        -- split; [| split; [done |]].
           ++ apply first_at_last. intros q Hq Heq.
              specialize (Hmin q Hq). rewrite Heq in Hmin.
              specialize (Hmin Hge). lia.
           ++ intros q [Hq | ->%list_elem_of_singleton]%elem_of_app HqT;
                [specialize (Hmin q Hq HqT) |]; lia.
        -- split; [by apply first_at_snoc | split; [done |]].
           intros q [Hq | ->%list_elem_of_singleton]%elem_of_app HqT;
             [by apply Hmin | lia].
      * split; [| split; [done |]].
        -- apply first_at_last. intros q Hq Heq. specialize (Ha q Hq).
           rewrite Heq in Ha. congruence.
        -- intros q [Hq | ->%list_elem_of_singleton]%elem_of_app HqT;
             [specialize (Ha q Hq); congruence | lia].
    + destruct above as [a |].
      * destruct Ha as (Hfirst & HaT & Hmin).
        split; [by apply first_at_snoc | split; [done |]].
        intros q [Hq | ->%list_elem_of_singleton]%elem_of_app HqT;
          [by apply Hmin | congruence].
      * intros q [Hq | ->%list_elem_of_singleton]%elem_of_app; auto.
Qed.

Lemma bracket_fold_inv T pairs seen st :
  bracket_inv T seen st →
  bracket_inv T (seen ++ pairs) (foldl (bracket_step T) st pairs).
Proof.
  revert seen st. induction pairs as [| p pairs IH]; intros seen st Hinv.
  - by rewrite app_nil_r.
  - cbn [foldl]. replace (seen ++ p :: pairs) with ((seen ++ [p]) ++ pairs)
      by (by rewrite <- app_assoc).
    apply IH. by apply bracket_step_inv.
Qed.

Lemma bracket_result T pairs :
  bracket_inv T pairs (foldl (bracket_step T) (None, None) pairs).
Proof.
  apply (bracket_fold_inv T pairs [] (None, None)).
  split; intros q Hq; by apply elem_of_nil in Hq.
Qed.

Lemma is_below_unique pairs T b b' :
  Spec.is_below pairs T b → Spec.is_below pairs T b' → b = b'.
Proof.
  intros (Hf & HT & Hmax) (Hf' & HT' & Hmax').
  apply (first_at_unique pairs); [done | done |].
  pose proof (Hmax b' (first_at_elem _ _ Hf') HT').
  pose proof (Hmax' b (first_at_elem _ _ Hf) HT). lia.
Qed.

Lemma is_above_unique pairs T a a' :
  Spec.is_above pairs T a → Spec.is_above pairs T a' → a = a'.
Proof.
  intros (Hf & HT & Hmin) (Hf' & HT' & Hmin').
  apply (first_at_unique pairs); [done | done |].
  pose proof (Hmin a' (first_at_elem _ _ Hf') HT').
  pose proof (Hmin' a (first_at_elem _ _ Hf) HT). lia.
Qed.

Lemma nearest_of_bracket pairs T b a :
  Spec.is_below pairs T b → Spec.is_above pairs T a →
  nearest_lambda_with_bracket pairs T = Spec.nearer T b a.
Proof.
  intros Hb Ha. unfold nearest_lambda_with_bracket.
  pose proof (bracket_result T pairs) as [Hb' Ha'].
  destruct (foldl (bracket_step T) (None, None) pairs) as [below above].
  simpl in Hb', Ha'.
  destruct below as [b' |]; cycle 1.
  { destruct Hb as (Hf & HT & _). specialize (Hb' b (first_at_elem _ _ Hf)).
    congruence. }
  destruct above as [a' |]; cycle 1.
  { destruct Ha as (Hf & HT & _). specialize (Ha' a (first_at_elem _ _ Hf)).
    congruence. }
  by rewrite (is_below_unique _ _ _ _ Hb' Hb), (is_above_unique _ _ _ _ Ha' Ha).
Qed.

Lemma nearest_cases pairs T :
  (nearest_lambda_with_bracket pairs T = Py.Ok None ∧
   ((∀ p, p ∈ pairs → Py.Z_le_float p.1 T = false) ∨
    (∀ p, p ∈ pairs → Py.Z_ge_float p.1 T = false))) ∨
  (∃ b a, Spec.is_below pairs T b ∧ Spec.is_above pairs T a ∧
          nearest_lambda_with_bracket pairs T = Spec.nearer T b a).
Proof.
  unfold nearest_lambda_with_bracket.
  destruct (bracket_result T pairs) as [Hb Ha].
  destruct (foldl (bracket_step T) (None, None) pairs) as [[b |] [a |]];
    simpl in Hb, Ha.
  - right. by exists b, a.
  - left. split; [done | by right].
  - left. split; [done | by left].
  - left. split; [done | by left].
Qed.

Lemma nearer_cases T b a :
  Spec.nearer T b a = Py.Ok (Some b.2) ∨
  Spec.nearer T b a = Py.Ok (Some a.2) ∨
  Spec.nearer T b a = Py.Raise Py.OverflowError ∧
  (Py.float_of_Z b.1 = Py.Raise Py.OverflowError ∨
   Py.float_of_Z a.1 = Py.Raise Py.OverflowError).
Proof.
  unfold Spec.nearer.
  assert (Hconv : ∀ n, (∃ f, Py.float_of_Z n = Py.Ok f) ∨
                       Py.float_of_Z n = Py.Raise Py.OverflowError).
  { intros n. unfold Py.float_of_Z.
    destruct (binary_normalize _ _ _ _ _); eauto. }
  destruct (Hconv b.1) as [[bn ->] | Hb]; cycle 1.
  { rewrite Hb. right. right. auto. }
  destruct (Hconv a.1) as [[an ->] | Ha]; cycle 1.
  { rewrite Ha. right. right. auto. }
  cbn [Py.bind]. destruct (PrimFloat.leb _ _); auto.
Qed.

Lemma nearest_none_iff pairs T :
  nearest_lambda_with_bracket pairs T = Py.Ok None ↔
  (∀ p, p ∈ pairs → Py.Z_le_float p.1 T = false) ∨
  (∀ p, p ∈ pairs → Py.Z_ge_float p.1 T = false).
Proof.
  destruct (nearest_cases pairs T)
    as [[-> Hside] | (b & a & Hb & Ha & ->)]; [done |].
  split.
  - destruct (nearer_cases T b a) as [-> | [-> | [-> _]]]; done.
  - destruct Hb as (Hfb & HbT & _), Ha as (Hfa & HaT & _).
    intros [Hno | Hno].
    + specialize (Hno b (first_at_elem _ _ Hfb)). congruence.
    + specialize (Hno a (first_at_elem _ _ Hfa)). congruence.
Qed.


(** C5: the two distances are compared after each index has been rounded
    to a float. For the pairs [(0, a)] and [(2^54 - 1, b)] and the target
    [2^53] (the target of the first problem scale for the directory
    [alpha-1.278976924368180334568023681640625e-11]), the pair below is at
    the distance [2^53] and the pair above at the distance [2^53 - 1], so
    the pair above is strictly nearer; the index [2^54 - 1] is rounded to
    [2^54], the two float distances are equal, and the selector returns
    the metric of the pair below. The examples of the spec hold: an exact
    match, a tie that goes to the pair below, and no value when every
    index lies on one side of the target. *)
Theorem nearest_prefers_below_on_a_rounded_tie (a b : float) :
  Py.exact 9007199254740992 = Some (inject_Z (2 ^ 53)) ∧
  (Z.abs (2 ^ 54 - 1 - 2 ^ 53) < Z.abs (2 ^ 53 - 0))%Z ∧
  Py.float_of_Z (2 ^ 54 - 1) = Py.Ok 18014398509481984%float ∧
  nearest_lambda_with_bracket [(0%Z, a); ((2 ^ 54 - 1)%Z, b)]
    9007199254740992 = Py.Ok (Some a) ∧
  (alpha_val ← Py.float "1.278976924368180334568023681640625e-11";
   Some (Py.truediv 230400 (2 * alpha_val)))
    = Some (Py.Ok 9007199254740992%float) ∧
  nearest_lambda_with_bracket
    [(100%Z, 1%float); (200%Z, 2%float); (300%Z, 3%float)] 200
    = Py.Ok (Some 2%float) ∧
  nearest_lambda_with_bracket [(150%Z, 10%float); (250%Z, 20%float)] 200
    = Py.Ok (Some 10%float) ∧
  nearest_lambda_with_bracket [(150%Z, 10%float); (250%Z, 20%float)] 100
    = Py.Ok None ∧
  nearest_lambda_with_bracket [(150%Z, 10%float); (250%Z, 20%float)] 300
    = Py.Ok None.
Proof.
  split; [vm_compute; reflexivity |]. split; [lia |].
  split; [vm_compute; reflexivity |].
  split; [vm_compute; reflexivity |].
  repeat split; vm_compute; reflexivity.
Qed.

(** ** C6: the statistics of the tail *)

Lemma slice_from_last {A} (l : list A) (K : Z) :
  (1 <= K)%Z → Py.slice_from l (- K) = drop (length l - Z.to_nat K) l.
Proof.
  intros HK. unfold Py.slice_from.
  destruct (Z.ltb_spec (- K) 0); [| lia]. f_equal. lia.
Qed.

Lemma tail_stats_unfold pow2 pairs K :
  (1 <= K <= Z.of_nat (length pairs))%Z →
  tail_stats pow2 pairs K =
  let xs := Spec.last_values pairs (Z.to_nat K) in
  let! m := Spec.mean xs in
  let! sd := Spec.pstdev pow2 xs in
  Py.Ok (Some m, Some sd).
Proof.
  intros [HK Hlen]. unfold tail_stats.
  destruct (Z.ltb_spec (Z.of_nat (length pairs)) K); [lia |].
  rewrite slice_from_last by done. fold (Spec.last_values pairs (Z.to_nat K)).
  assert (HlenK : Z.of_nat (length (Spec.last_values pairs (Z.to_nat K))) = K).
  { unfold Spec.last_values. rewrite length_fmap, length_drop. lia. }
  cbv zeta. unfold Spec.pstdev, Spec.mean. rewrite HlenK.
  destruct (Py.div_by_int (Py.sum (Spec.last_values pairs (Z.to_nat K))) K)
    as [m | e]; cbn [Py.bind]; [| done].
  destruct (Py.map_result _ _) as [squares | e]; cbn [Py.bind]; [| done].
  destruct (Py.div_by_int (Py.sum squares) K) as [variance | e];
    cbn [Py.bind]; [| done].
  by destruct (Py.math_sqrt variance).
Qed.

(** C6, counterexample: a count of zero gives a division by zero, and a
    negative count divides the sum of the values after the first [-K] by
    a negative number; the square of a deviation that is out of the range
    of the floats raises; and the mean of twelve values equal to [0.1] is
    the float just below [0.1], so their spread is [2^-56] rather than
    zero. *)
Lemma tail_stats_zero_count_raises :
  tail_stats (Py.checked_pow2 Sample.square) [(1%Z, 3%float)] 0
    = Py.Raise Py.ZeroDivisionError ∧
  tail_stats (Py.checked_pow2 Sample.square)
    [(1%Z, 3%float); (2%Z, 5%float)] (-1) = Py.Raise Py.ValueError ∧
  tail_stats (Py.checked_pow2 Sample.square) Sample.opposite_pairs 2
    = Py.Raise Py.OverflowError ∧
  Sample.tenths.*2 = replicate 12 0x1.999999999999ap-4%float ∧
  tail_stats (Py.checked_pow2 Sample.square) Sample.tenths 12
    = Py.Ok (Some 0x1.9999999999999p-4%float, Some 0x1p-56%float).
Proof. repeat split; vm_compute; reflexivity. Qed.

(** C6 (amended). For every count [K] of at least one and whatever the
    platform returns for a square: with fewer than [K] pairs both
    statistics are absent; otherwise they are computed in floats from the
    metrics of the last [K] pairs, in series order: the mean is their sum
    taken from left to right and divided by [K], the spread is the square
    root of the sum of the squared deviations from that mean divided by
    [K] (not by [K - 1]), each operation rounded, and an exception of one
    of these operations is the result. For [K = 2] and the values [3.0]
    and [5.0] the mean is [4.0] and the spread [1.0]. *)
Theorem tail_stats_mean_and_population_stdev
    (pow2 : float → Py.result float) (pairs : list (Z * float)) (K : Z) :
  (1 <= K)%Z →
  ((Z.of_nat (length pairs) < K)%Z →
   tail_stats pow2 pairs K = Py.Ok (None, None)) ∧
  ((K <= Z.of_nat (length pairs))%Z →
   let xs := Spec.last_values pairs (Z.to_nat K) in
   length xs = Z.to_nat K ∧
   (∃ front, pairs.*2 = front ++ xs) ∧
   tail_stats pow2 pairs K =
   (let! m := Spec.mean xs in
    let! sd := Spec.pstdev pow2 xs in
    Py.Ok (Some m, Some sd))) ∧
  (∀ square,
     tail_stats (Py.checked_pow2 square) [(1%Z, 3%float); (2%Z, 5%float)] 2
     = Py.Ok (Some 4%float, Some 1%float)).
Proof.
  intros HK. split; [| split].
  - intros Hfew. unfold tail_stats.
    by destruct (Z.ltb_spec (Z.of_nat (length pairs)) K); [| lia].
  - intros Hlen. cbv zeta. split; [| split].
    + unfold Spec.last_values. rewrite length_fmap, length_drop. lia.
    + exists (take (length pairs - Z.to_nat K) pairs).*2.
      unfold Spec.last_values. by rewrite <- fmap_app, take_drop.
    + by apply tail_stats_unfold.
  - intros square. vm_compute. reflexivity.
Qed.

Lemma tail_stats_mean_and_population_stdev_witness :
  tail_stats (Py.checked_pow2 Sample.square) Sample.opposite_pairs 1
  = Py.Ok (Some (-0x1.4e718d7d7625ap+664)%float, Some 0%float).
Proof.
  destruct (tail_stats_mean_and_population_stdev
              (Py.checked_pow2 Sample.square) Sample.opposite_pairs 1
              ltac:(lia)) as (_ & Hsome & _).
  rewrite (proj2 (proj2 (Hsome ltac:(simpl; lia)))).
  vm_compute. reflexivity.
Defined.

(** ** C2, C4: the cert-table builders *)

Lemma tail_stats_shape pow2 pairs count r :
  tail_stats pow2 pairs count = Py.Ok r →
  r = (None, None) ∨ ∃ m sd, r = (Some m, Some sd).
Proof.
  unfold tail_stats. destruct (_ <? _)%Z; [intros [= <-]; by left |].
  destruct (Py.div_by_int _ _) as [m |]; [| done]. cbn [Py.bind].
  destruct (Py.map_result _ _) as [squares |]; [| done]. cbn [Py.bind].
  destruct (Py.div_by_int _ _) as [v |]; [| done]. cbn [Py.bind].
  destruct (Py.math_sqrt v) as [sd |]; [| done].
  intros [= <-]. right. by exists m, sd.
Qed.

Lemma fmt_value_blank v : fmt_value v = Blank ↔ v = None.
Proof. by destruct v. Qed.

Lemma sort_keys_some dirs keyed :
  sort_keys dirs = Some keyed →
  keyed.*2 = dirs ∧
  Forall (λ d, is_Some (Py.float (alpha_str d))) dirs.
Proof.
  unfold sort_keys. intros H%mapM_Some.
  induction H as [| d kd dirs keyed Hd Hrest IH].
  - done.
  - destruct IH as [IH1 IH2].
    destruct (Py.float (alpha_str d)) as [key |] eqn:Hkey; [| done].
    injection Hd as <-. split; [cbn; by rewrite IH1 |].
    constructor; [by rewrite Hkey | done].
Qed.


Section CertMainFacts.

Context `{sorter : !SortedBuiltin alpha_dir}.

Variable load : table → Py.result (list (Z * float)).
Variable tail_count : Z.
Variable pow2 : float → Py.result float.

Lemma visit_acc cert_rows d :
  visit load tail_count pow2 cert_rows d =
  (let! new := visit load tail_count pow2 [] d in Py.Ok (cert_rows ++ new)).
Proof.
  unfold visit. destruct (Py.float (alpha_str d)) as [a |];
    [| simpl; by rewrite app_nil_r].
  destruct (min_file d), (max_file d); try (simpl; by rewrite app_nil_r).
  destruct (load _); [| done]. cbn [Py.bind].
  destruct (load _); [| done]. cbn [Py.bind].
  destruct (is_nil _ || is_nil _); [done |].
  repeat (match goal with
          | |- context [Py.bind ?x _] => destruct x; [| done]; cbn [Py.bind]
          end).
  done.
Qed.

Lemma visit_all_acc cert_rows dirs :
  visit_all load tail_count pow2 cert_rows dirs =
  (let! new := visit_all load tail_count pow2 [] dirs in
   Py.Ok (cert_rows ++ new)).
Proof.
  revert cert_rows. induction dirs as [| d dirs IH]; intros cert_rows.
  - simpl. by rewrite app_nil_r.
  - cbn [visit_all]. rewrite visit_acc.
    destruct (visit load tail_count pow2 [] d) as [new |]; [| done].
    cbn [Py.bind]. rewrite IH, (IH new).
    destruct (visit_all load tail_count pow2 [] dirs); [| done].
    cbn [Py.bind]. by rewrite app_assoc.
Qed.

Lemma visit_all_cons d dirs :
  visit_all load tail_count pow2 [] (d :: dirs) =
  (let! own := visit load tail_count pow2 [] d in
   let! rest := visit_all load tail_count pow2 [] dirs in
   Py.Ok (own ++ rest)).
Proof.
  cbn [visit_all].
  destruct (visit load tail_count pow2 [] d) as [own |]; [| done].
  cbn [Py.bind]. by rewrite visit_all_acc.
Qed.

(** A directory without both files gives no row and raises nothing. *)
Lemma visit_without_both d :
  ¬ Spec.has_both d → visit load tail_count pow2 [] d = Py.Ok [].
Proof.
  unfold Spec.has_both, visit. intros Hnot.
  destruct (Py.float (alpha_str d)); [| done].
  destruct (min_file d), (max_file d); try done.
  exfalso. apply Hnot. split; by eexists.
Qed.

(** A directory with both files and a numeric name gives one row when
    nothing raises. *)
Lemma visit_with_both d rs :
  is_Some (Py.float (alpha_str d)) → Spec.has_both d →
  visit load tail_count pow2 [] d = Py.Ok rs →
  ∃ r, rs = [r] ∧ Spec.row_of load d r ∧ tail_fields_paired r.
Proof.
  unfold Spec.has_both, visit, Spec.row_of.
  intros [a ->] [[min_f ->] [max_f ->]]. cbv beta iota.
  destruct (load min_f) as [min_pairs |] eqn:Hlmin; [| done]. cbn [Py.bind].
  destruct (load max_f) as [max_pairs |] eqn:Hlmax; [| done]. cbn [Py.bind].
  destruct (is_nil min_pairs || is_nil max_pairs) eqn:Hnil.
  { intros [= <-]. exists (blank_row a). by repeat split. }
  apply orb_false_iff in Hnil as [Hmin Hmax].
  destruct (Py.truediv 230400 _); [| done]. cbn [Py.bind].
  destruct (Py.truediv 33177600 _); [| done]. cbn [Py.bind].
  do 4 (destruct (nearest_lambda_with_bracket _ _); [| done];
        cbn [Py.bind]).
  destruct (tail_stats pow2 min_pairs _) as [lo |] eqn:Hlo; [| done].
  destruct (tail_stats pow2 max_pairs _) as [hi |] eqn:Hhi; [| done].
  cbn [Py.bind]. intros [= <-]. eexists. split; [reflexivity |].
  split; [split; [done |] |].
  - intros ? ? [= <-] [= <-] [Hnone | Hnone];
      [rewrite Hnone in Hlmin | rewrite Hnone in Hlmax]; by simplify_eq/=.
  - unfold tail_fields_paired.
    cbn [Lfinal_lo Lfinal_lo_std Lfinal_hi Lfinal_hi_std].
    rewrite !fmt_value_blank.
    apply tail_stats_shape in Hlo as [-> | (? & ? & ->)];
      apply tail_stats_shape in Hhi as [-> | (? & ? & ->)]; by cbn.
Qed.

Lemma visit_all_rows dirs cert_rows :
  Forall (λ d, is_Some (Py.float (alpha_str d))) dirs →
  visit_all load tail_count pow2 [] dirs = Py.Ok cert_rows →
  Forall2 (λ d r, Spec.row_of load d r ∧ tail_fields_paired r)
          (filter Spec.has_both dirs) cert_rows.
Proof.
  intros Hnames. revert cert_rows.
  induction Hnames as [| d dirs Hd _ IH]; intros cert_rows.
  - intros [= <-]. constructor.
  - rewrite visit_all_cons.
    destruct (visit load tail_count pow2 [] d) as [own |] eqn:Hown; [| done].
    cbn [Py.bind].
    destruct (visit_all load tail_count pow2 [] dirs) as [rest |]; [| done].
    intros [= <-]. specialize (IH rest eq_refl).
    rewrite filter_cons. destruct (decide (Spec.has_both d)) as [Hboth | Hnot].
    + destruct (visit_with_both d own Hd Hboth Hown) as (r & -> & Hr).
      by constructor.
    + rewrite (visit_without_both d Hnot) in Hown. by injection Hown as <-.
Qed.



(** What [main] does once the keys are computed. *)
Lemma cert_main_sorted dirs keyed :
  sort_keys dirs = Some keyed →
  sorted keyed ≡ₚ dirs ∧
  Forall (λ d, is_Some (Py.float (alpha_str d))) (sorted keyed) ∧
  cert_main load tail_count pow2 dirs =
  match visit_all load tail_count pow2 [] (sorted keyed) with
  | Py.Raise e => Py.Uncaught e
  | Py.Ok [] => Py.Exit1
  | Py.Ok cert_rows => Py.Written cert_rows
  end.
Proof.
  intros Hkeys. destruct (sort_keys_some _ _ Hkeys) as [Hdirs Hnames].
  assert (Hperm : sorted keyed ≡ₚ dirs)
    by (by rewrite sorted_permutes, Hdirs).
  split; [done |]. split; [by rewrite Hperm |].
  unfold cert_main. by rewrite Hkeys.
Qed.

Lemma cert_main_written dirs cert_rows :
  cert_main load tail_count pow2 dirs = Py.Written cert_rows →
  ∃ keyed, sort_keys dirs = Some keyed ∧ sorted keyed ≡ₚ dirs ∧
           cert_rows ≠ [] ∧
           Forall2 (λ d r, Spec.row_of load d r ∧ tail_fields_paired r)
                   (filter Spec.has_both (sorted keyed)) cert_rows.
Proof.
  destruct (sort_keys dirs) as [keyed |] eqn:Hkeys;
    [| unfold cert_main; by rewrite Hkeys].
  destruct (cert_main_sorted dirs keyed Hkeys) as (Hperm & Hnames & ->).
  destruct (visit_all _ _ _ _ _) as [[| r rs] |] eqn:Hrun; try done.
  intros [= <-]. exists keyed. split; [done |]. split; [done |].
  split; [done |]. by apply visit_all_rows.
Qed.



End CertMainFacts.






(** ** C9: the extrema recorded for a window *)

















(** The scan of summarizelambdabound.py, when [int] never raises, tracks
    the candidates of the batch. *)
Lemma lambda_scan_from_candidates lambda_column batch e e' :
  LambdaBound.scan_from lambda_column e batch = Py.Ok e' →
  e' = track_all e (omap (lambda_candidate lambda_column) batch).
Proof.
  revert e. induction batch as [| r batch IH]; intros e.
  - by intros [= <-].
  - cbn [LambdaBound.scan_from omap list_omap].
    unfold LambdaBound.scan_row, lambda_candidate.
    destruct (LambdaBound.parse_lambda _) as [v |]; [| apply IH].
    destruct (Py.or_else _ _) as [n_val_str |]; [| apply IH].
    destruct (Py.truthy _); cbn [negb]; [| apply IH].
    destruct (Py.int _) as [n |]; [| done]. apply IH.
Qed.

Lemma ratio_scan_candidates batch st :
  (foldl BoundRatio.scan_row st batch).2 =
  track_all st.2 (omap ratio_candidate batch).
Proof.
  revert st. induction batch as [| r batch IH]; intros st; [done |].
  cbn [foldl omap list_omap]. rewrite IH.
  unfold BoundRatio.scan_row, ratio_candidate.
  destruct (get r "n" "") as [n_str |]; [| done].
  destruct (Py.truthy _); cbn [negb]; [| done].
  destruct (Py.int _) as [n |]; [| done]. cbn [snd].
  by destruct (BoundRatio.parse_float (get r "lambda" "")).
Qed.

Section BatchLoopFacts.

Variable scan : list row → Py.result extrema.
Variable alpha_value : float.
Variable all_rows : list row.
Variable batch_size : nat.

Lemma batch_loop_from_windows fuel start results out :
  batch_loop scan alpha_value all_rows batch_size fuel start results
    = Some (Py.Ok out) →
  Forall (from_a_window scan alpha_value all_rows) results →
  Forall (from_a_window scan alpha_value all_rows) out.
Proof.
  revert start results. induction fuel as [| fuel IH]; intros start results;
    [done |].
  cbn [batch_loop].
  destruct (scan _) as [e |] eqn:Hscan; [| done]. intros Hrun Hres.
  assert (Hres' : Forall (from_a_window scan alpha_value all_rows)
                         (emit alpha_value e results)).
  { unfold emit.
    destruct (bool_decide (is_Some (min_val e)) ||
              bool_decide (is_Some (max_val e))) eqn:Hdef; [| done].
    apply Forall_app. split; [done |]. apply Forall_singleton.
    eexists _, _, e. split; [exact Hscan |]. split; [| done].
    apply orb_true_iff in Hdef as [H | H]; apply bool_decide_eq_true in H;
      auto. }
  destruct (start =? 0)%nat.
  - by injection Hrun as <-.
  - by apply (IH _ _ Hrun).
Qed.

Lemma batch_loop_returns fuel start results :
  (1 ≤ batch_size)%nat → (start < fuel)%nat →
  is_Some (batch_loop scan alpha_value all_rows batch_size fuel start results).
Proof.
  intros Hsize. revert start results.
  induction fuel as [| fuel IH]; intros start results Hfuel; [lia |].
  cbn [batch_loop]. destruct (scan _); [| done].
  destruct (Nat.eqb_spec start 0); [done |]. apply IH. lia.
Qed.

Lemma process_rows_from_windows out :
  process_rows scan alpha_value all_rows batch_size = Some out →
  Forall (from_a_window scan alpha_value all_rows) out.
Proof.
  unfold process_rows. destruct (length all_rows =? 0)%nat;
    [by intros [= <-] |].
  destruct (batch_loop _ _ _ _ _ _ _) as [[results | e] |] eqn:Hrun;
    [| by intros [= <-] | done].
  intros [= <-]. by apply (batch_loop_from_windows _ _ _ _ Hrun).
Qed.

Lemma process_rows_returns :
  (1 ≤ batch_size)%nat →
  is_Some (process_rows scan alpha_value all_rows batch_size).
Proof.
  intros Hsize. unfold process_rows.
  destruct (length all_rows =? 0)%nat; [done |].
  destruct (batch_loop_returns (S (length all_rows))
              (length all_rows - batch_size) [] Hsize) as [[out | e] ->];
    [lia | done | done].
Qed.

End BatchLoopFacts.

Lemma slice_subseteq {A} (l : list A) start stop : Py.slice l start stop ⊆ l.
Proof.
  unfold Py.slice. etrans; [apply subseteq_take | apply subseteq_drop].
Qed.

Lemma int_of_empty s : Py.truthy s = false → Py.int s = None.
Proof. by intros ->%truthy_false. Qed.






(** ** The layout of the windows *)

Lemma ceil_step W n :
  (1 ≤ W)%nat → (1 ≤ n)%nat →
  ((n + W - 1) / W = S ((n - W + W - 1) / W))%nat.
Proof.
  intros HW Hn. destruct (Nat.le_gt_cases W n) as [Hle | Hlt].
  - replace (n + W - 1)%nat with ((n - W + W - 1) + 1 * W)%nat by lia.
    rewrite Nat.div_add by lia. lia.
  - replace (n - W + W - 1)%nat with (W - 1)%nat by lia.
    rewrite (Nat.div_small (W - 1) W) by lia.
    symmetry. apply (Nat.div_unique _ _ _ (n - 1)); lia.
Qed.

(** The loop visits the starts [s, s - W, s - 2W, ...] down to [0]. *)
Lemma window_starts_closed W fuel start :
  (1 ≤ W)%nat → (start < fuel)%nat →
  window_starts fuel W start =
  (λ k, start - k * W)%nat <$> seq 0 (S ((start + W - 1) / W)).
Proof.
  intros HW. revert start.
  induction fuel as [| fuel IH]; intros start Hfuel; [lia |].
  cbn [window_starts]. destruct (Nat.eqb_spec start 0) as [-> | Hpos].
  - rewrite (Nat.div_small (0 + W - 1) W) by lia. reflexivity.
  - rewrite IH by lia. rewrite (ceil_step W start) by lia.
    set (n := ((start - W + W - 1) / W)%nat).
    change (seq 0 (S (S n))) with (0%nat :: seq 1 (S n)).
    rewrite <- (fmap_S_seq 0 (S n)), fmap_cons, <- list_fmap_compose.
    f_equal; [lia |]. apply list_fmap_ext. intros _ k _. simpl. lia.
Qed.

(** For a batch size of at least 1 there are [ceil(L / W)] windows; the
    window of rank [k] (0 for the most recent) starts [(k + 1) * W] records
    before the end, or at the first record when fewer remain, and spans
    [W] records from there (fewer only when the file has fewer than [W]). *)
Lemma windows_count W L :
  (1 ≤ W)%nat → length (windows W L) = ((L + W - 1) / W)%nat.
Proof.
  intros HW. unfold windows. destruct (Nat.eqb_spec L 0) as [-> | HL].
  - by rewrite (Nat.div_small (0 + W - 1) W) by lia.
  - rewrite length_fmap, window_starts_closed by lia.
    rewrite length_fmap, length_seq. symmetry. apply ceil_step; lia.
Qed.

Lemma windows_lookup W L k :
  (1 ≤ W)%nat → (k < (L + W - 1) / W)%nat →
  windows W L !! k =
  Some ((L - (k + 1) * W)%nat, ((L - (k + 1) * W + W) `min` L)%nat).
Proof.
  intros HW Hk. unfold windows. destruct (Nat.eqb_spec L 0) as [-> | HL].
  { rewrite (Nat.div_small (0 + W - 1) W) in Hk by lia. lia. }
  rewrite window_starts_closed by lia.
  rewrite (ceil_step W L) in Hk by lia.
  rewrite !list_lookup_fmap, lookup_seq_lt by lia. simpl.
  do 2 f_equal; lia.
Qed.

(** When the size does not divide the number of rows (and is smaller),
    the earliest window is the full batch [rows[0:W]] and the window before
    it starts at [L mod W]: the records from [L mod W] up to [W] are in
    both. *)
Lemma earliest_window_overlaps W L :
  (1 ≤ W)%nat → (W < L)%nat → (L mod W ≠ 0)%nat →
  windows W L !! (L / W - 1)%nat = Some ((L mod W)%nat, (L mod W + W)%nat) ∧
  windows W L !! (L / W)%nat = Some (0%nat, W) ∧
  (0 < L mod W < W)%nat.
Proof.
  intros HW HL Hrem.
  pose proof (Nat.div_mod_eq L W) as Hdiv.
  pose proof (Nat.mod_upper_bound L W ltac:(lia)) as Hlt.
  set (q := (L / W)%nat) in *. set (r := (L mod W)%nat) in *.
  assert (Hq : (1 ≤ q)%nat) by nia.
  assert (Hceil : ((L + W - 1) / W = q + 1)%nat).
  { symmetry. apply (Nat.div_unique _ _ _ (r - 1)); nia. }
  split; [| split; [| lia]].
  - rewrite windows_lookup by lia. do 2 f_equal; nia.
  - rewrite windows_lookup by lia. do 2 f_equal; nia.
Qed.

Section BatchLoopLayout.

Variable scan : list row → Py.result extrema.
Variable scan_value : list row → extrema.
Variable alpha_value : float.
Variable all_rows : list row.
Variable batch_size : nat.
Hypothesis scan_never_raises : ∀ batch, scan batch = Py.Ok (scan_value batch).

Lemma batch_loop_by_windows fuel start results :
  (1 ≤ batch_size)%nat → (start < fuel)%nat →
  batch_loop scan alpha_value all_rows batch_size fuel start results =
  Some (Py.Ok
    (emit_windows scan_value alpha_value all_rows results
       ((λ s, (s, (s + batch_size) `min` length all_rows)) <$>
        window_starts fuel batch_size start))).
Proof.
  intros HW. revert start results.
  induction fuel as [| fuel IH]; intros start results Hfuel; [lia |].
  cbn [batch_loop window_starts]. rewrite scan_never_raises.
  destruct (Nat.eqb_spec start 0) as [-> | Hpos]; [done |].
  rewrite IH by lia. done.
Qed.

Lemma process_rows_by_windows :
  (1 ≤ batch_size)%nat →
  process_rows scan alpha_value all_rows batch_size =
  Some (emit_windows scan_value alpha_value all_rows []
          (windows batch_size (length all_rows))).
Proof.
  intros HW. unfold process_rows, windows.
  destruct (length all_rows =? 0)%nat; [done |].
  by rewrite batch_loop_by_windows by lia.
Qed.

End BatchLoopLayout.

(** Two rows with equal lambda: the sample index of the first is kept for
    the minimum and for the maximum. *)
Example equal_values_keep_the_first_index :
  BoundRatio.process_file Sample.tied_rows 1 12 =
  Some [ Summary 1 (Some 1%Z) (Some 2.5%float) (Some 1%Z) (Some 2.5%float) ].
Proof. vm_compute. reflexivity. Qed.

(** ** C1: the layout of the windows *)

(** C1, at a failing input. With thirteen rows and the batch size 12 the
    loop scans [rows[1:13]] and then [rows[0:12]]: the earliest window is
    not the one remaining record but a full batch, and the seventh record,
    the only one with a defined lambda, is reported by both windows. A
    partition of the rows would give one summary (the window of the first
    record alone has no defined value and is suppressed). The same happens
    in summarizeboundratio.py with three rows and the batch size 2. *)
Theorem windows_overlap_when_size_does_not_divide :
  windows LambdaBound.batch_size (length Sample.thirteen_rows)
    = [(1, 13); (0, 12)]%nat ∧
  windows 2 (length Sample.three_rows) = [(1, 3); (0, 2)]%nat ∧
  LambdaBound.process_file Sample.thirteen_rows 1 "Lambda_min" =
    Some [ Summary 1 (Some 7%Z) (Some 2.5%float)
                     (Some 7%Z) (Some 2.5%float);
           Summary 1 (Some 7%Z) (Some 2.5%float)
                     (Some 7%Z) (Some 2.5%float) ] ∧
  BoundRatio.process_file Sample.three_rows 1 2 =
    Some [ Summary 1 (Some 2%Z) (Some 1.5%float)
                     (Some 2%Z) (Some 1.5%float);
           Summary 1 (Some 2%Z) (Some 1.5%float)
                     (Some 2%Z) (Some 1.5%float) ].
Proof. repeat split; vm_compute; reflexivity. Qed.

(** ** C3: a sample index that is no integer *)

(** C3, at a failing input. In summarizelambdabound.py the [ValueError] of
    [int("abc")] leaves the loops and [process_file] returns the empty
    list: the second row, which alone yields a summary, is lost with the
    first. The sibling loops skip the bad row and keep the other:
    [process_file] of summarizeboundratio.py and [load_lambda_pairs] of
    summarizelambdaboundcert.py. *)
Theorem bad_index_discards_every_row_of_the_file :
  LambdaBound.process_file Sample.bad_index_rows 1 "Lambda_min" = Some [] ∧
  LambdaBound.process_file (drop 1 Sample.bad_index_rows) 1 "Lambda_min" =
    Some [ Summary 1 (Some 10%Z) (Some 2.5%float)
                     (Some 10%Z) (Some 2.5%float) ] ∧
  BoundRatio.process_file Sample.bad_index_ratio_rows 1 12 =
    Some [ Summary 1 (Some 10%Z) (Some 2.5%float)
                     (Some 10%Z) (Some 2.5%float) ] ∧
  LambdaBoundCert.load_lambda_pairs
    (Table ["n_0"; "Lambda_min"] Sample.bad_index_rows) =
    Py.Ok [(10%Z, 2.5%float)].
Proof. repeat split; vm_compute; reflexivity. Qed.

(** * Further properties of the code *)

(** ** The window loop of the plotting summarisers *)

Lemma slice_lookup {A} (l : list A) start stop i x :
  l !! i = Some x → (start ≤ i)%nat → (i < stop)%nat →
  x ∈ Py.slice l start stop.
Proof.
  intros Hx Hlo Hhi. unfold Py.slice. apply list_elem_of_lookup.
  exists (i - start)%nat. rewrite lookup_take_lt by lia.
  rewrite lookup_drop. by replace (start + (i - start))%nat with i by lia.
Qed.

Lemma slice_length {A} (l : list A) start stop :
  (stop ≤ length l)%nat →
  length (Py.slice l start stop) = (stop - start)%nat.
Proof.
  intros H. unfold Py.slice. rewrite length_take, length_drop. lia.
Qed.

(** Every record lies in the window of rank [(L - 1 - i) / W]. *)
Lemma window_covering W L i :
  (1 ≤ W)%nat → (i < L)%nat →
  ∃ k w, windows W L !! k = Some w ∧ in_window i w.
Proof.
  intros HW Hi.
  pose proof (Nat.div_mod_eq (L - 1 - i) W) as Hdiv.
  pose proof (Nat.mod_upper_bound (L - 1 - i) W ltac:(lia)) as Hlt.
  set (k := ((L - 1 - i) / W)%nat) in *.
  set (r := ((L - 1 - i) mod W)%nat) in *.
  assert (Hk : (k < (L + W - 1) / W)%nat).
  { replace (L + W - 1)%nat with ((L - 1) + 1 * W)%nat by lia.
    rewrite Nat.div_add by lia.
    pose proof (Nat.Div0.div_le_mono (L - 1 - i) (L - 1) W ltac:(lia)).
    fold k in H. lia. }
  exists k, ((L - (k + 1) * W)%nat, ((L - (k + 1) * W + W) `min` L)%nat).
  split; [by apply windows_lookup |].
  unfold in_window. cbn [fst snd]. split; nia.
Qed.

Lemma windows_elem W L w :
  (1 ≤ W)%nat → w ∈ windows W L →
  (w.2 ≤ L)%nat ∧ (w.2 - w.1 = W `min` L)%nat.
Proof.
  intros HW (k & Hk)%list_elem_of_lookup.
  assert (Hlt : (k < (L + W - 1) / W)%nat).
  { rewrite <- windows_count by done. by eapply lookup_lt_Some. }
  rewrite windows_lookup in Hk by done. injection Hk as <-.
  cbn [fst snd]. split; [lia |].
  assert (L ≠ 0)%nat.
  { intros ->. rewrite (Nat.div_small (0 + W - 1) W) in Hlt by lia. lia. }
  rewrite (ceil_step W L) in Hlt by lia.
  assert (k * W < L)%nat; [| nia].
  destruct (Nat.le_gt_cases W L) as [Hle | Hgt].
  - replace (L - W + W - 1)%nat with (L - 1)%nat in Hlt by lia.
    pose proof (Nat.Div0.mul_div_le (L - 1) W). nia.
  - replace (L - W + W - 1)%nat with (W - 1)%nat in Hlt by lia.
    rewrite (Nat.div_small (W - 1) W) in Hlt by lia. nia.
Qed.

Section BatchLoopOutcome.

Variable scan : list row → Py.result extrema.
Variable alpha_value : float.
Variable all_rows : list row.
Variable batch_size : nat.

(** The loop ends with the summaries of its windows when every scan
    succeeds, and with an exception as soon as one scan raises. *)
Lemma batch_loop_outcome fuel start results :
  (1 ≤ batch_size)%nat → (start < fuel)%nat →
  (Forall (λ s, ∃ e, scan (scanned all_rows batch_size s) = Py.Ok e)
          (window_starts fuel batch_size start) ∧
   batch_loop scan alpha_value all_rows batch_size fuel start results =
   Some (Py.Ok
     (emit_windows (value_of scan) alpha_value all_rows results
        ((λ s, (s, (s + batch_size) `min` length all_rows)) <$>
         window_starts fuel batch_size start)))) ∨
  (Exists (λ s, ∃ x, scan (scanned all_rows batch_size s) = Py.Raise x)
          (window_starts fuel batch_size start) ∧
   ∃ x, batch_loop scan alpha_value all_rows batch_size fuel start results =
        Some (Py.Raise x)).
Proof.
  intros HW. revert start results.
  induction fuel as [| fuel IH]; intros start results Hfuel; [lia |].
  cbn [batch_loop window_starts].
  destruct (scan _) as [e | x] eqn:Hscan; cycle 1.
  { right. split; [| by exists x]. apply Exists_cons_hd. by exists x. }
  assert (Hval : value_of scan (scanned all_rows batch_size start) = e).
  { unfold value_of, scanned. by rewrite Hscan. }
  destruct (Nat.eqb_spec start 0) as [-> | Hpos].
  - left. split; [repeat constructor; by exists e |].
    cbn [fmap list_fmap emit_windows foldl fst snd].
    unfold scanned in Hval. by rewrite Hval.
  - destruct (IH (start - batch_size)%nat (emit alpha_value e results))
      as [[Hall Hrun] | [Hex Hrun]]; [lia | |].
    + left. split; [constructor; [by exists e | done] |].
      rewrite Hrun. cbn [fmap list_fmap emit_windows foldl fst snd].
      unfold scanned in Hval. by rewrite Hval.
    + right. split; [by apply Exists_cons_tl | done].
Qed.

Lemma process_rows_outcome :
  (1 ≤ batch_size)%nat →
  (Exists (λ w, ∃ x, scan (Py.slice all_rows w.1 w.2) = Py.Raise x)
          (windows batch_size (length all_rows)) ∧
   process_rows scan alpha_value all_rows batch_size = Some []) ∨
  (Forall (λ w, ∃ e, scan (Py.slice all_rows w.1 w.2) = Py.Ok e)
          (windows batch_size (length all_rows)) ∧
   process_rows scan alpha_value all_rows batch_size =
   Some (emit_windows (value_of scan) alpha_value all_rows []
           (windows batch_size (length all_rows)))).
Proof.
  intros HW. unfold process_rows, windows.
  destruct (length all_rows =? 0)%nat; [right; by split |].
  destruct (batch_loop_outcome (S (length all_rows))
              (length all_rows - batch_size) [] HW)
    as [[Hall ->] | [Hex [x ->]]]; [lia | right | left].
  - split; [| done]. by apply Forall_fmap.
  - split; [| done]. by apply Exists_fmap.
Qed.

(** A scan that raises on every batch holding the row [bad] empties the
    result of the file. *)
Lemma process_rows_raises bad :
  (1 ≤ batch_size)%nat → bad ∈ all_rows →
  (∀ batch, bad ∈ batch → ∃ x, scan batch = Py.Raise x) →
  process_rows scan alpha_value all_rows batch_size = Some [].
Proof.
  intros HW (i & Hi)%list_elem_of_lookup Hraise. unfold process_rows.
  pose proof (lookup_lt_Some _ _ _ Hi) as Hlen.
  destruct (Nat.eqb_spec (length all_rows) 0) as [| Hpos]; [done |].
  destruct (batch_loop_outcome (S (length all_rows))
              (length all_rows - batch_size) [] HW)
    as [[Hall _] | [_ [x ->]]]; [lia | | done].
  exfalso.
  destruct (window_covering batch_size (length all_rows) i HW Hlen)
    as (k & [s t] & Hk & Hs & Ht).
  unfold windows in Hk. destruct (length all_rows =? 0)%nat; [done |].
  rewrite list_lookup_fmap in Hk.
  destruct (window_starts _ _ _ !! k) as [s' |] eqn:Hs'; [| done].
  injection Hk as -> <-. cbn [fst snd] in Hs, Ht.
  rewrite Forall_forall in Hall.
  destruct (Hall s (list_elem_of_lookup_2 _ _ _ Hs')) as [e He].
  destruct (Hraise (scanned all_rows batch_size s)) as [x Hx];
    [| congruence].
  by apply (slice_lookup _ _ _ i).
Qed.

(** At most one summary is appended per window, and each carries the
    alpha of the file. *)
Lemma emit_windows_bound scan_value results ws :
  let out := emit_windows scan_value alpha_value all_rows results ws in
  (length out ≤ length results + length ws)%nat ∧
  (Forall (λ r, alpha r = alpha_value) results →
   Forall (λ r, alpha r = alpha_value) out).
Proof.
  revert results. induction ws as [| w ws IH]; intros results; cbn zeta.
  - cbn. split; [lia | done].
  - cbn [emit_windows foldl].
    destruct (IH (emit alpha_value
                    (scan_value (Py.slice all_rows w.1 w.2)) results))
      as [Hlen Hall].
    assert (Hemit : ∀ e,
      (length (emit alpha_value e results) ≤ S (length results))%nat ∧
      (Forall (λ r, alpha r = alpha_value) results →
       Forall (λ r, alpha r = alpha_value) (emit alpha_value e results))).
    { intros e. unfold emit. destruct (_ || _).
      - rewrite length_app. cbn. split; [lia |]. intros H.
        apply Forall_app. split; [done |]. by apply Forall_singleton.
      - split; [lia | done]. }
    destruct (Hemit (scan_value (Py.slice all_rows w.1 w.2))) as [Hl Ha].
    unfold emit_windows in *. cbn [length]. split; [lia | auto].
Qed.

End BatchLoopOutcome.

Lemma emit_windows_nothing scan_value alpha_value all_rows ws :
  (∀ batch, batch ⊆ all_rows → scan_value batch = no_extrema) →
  emit_windows scan_value alpha_value all_rows [] ws = [].
Proof.
  intros Hnone. induction ws as [| w ws IH]; [done |].
  cbn [emit_windows foldl]. rewrite Hnone by apply slice_subseteq. apply IH.
Qed.

Lemma ratio_value_of batch :
  value_of BoundRatio.scan batch =
  track_all no_extrema (omap ratio_candidate batch).
Proof. unfold value_of, BoundRatio.scan. apply ratio_scan_candidates. Qed.

Lemma omap_all_none {A B} (f : A → option B) (l : list A) :
  (∀ x, x ∈ l → f x = None) → omap f l = [].
Proof.
  induction l as [| x l IH]; intros H; [done |].
  cbn [omap list_omap]. rewrite H by left. apply IH.
  intros y Hy. apply H. by right.
Qed.

Lemma lambda_value_of lambda_column batch :
  (∀ r, r ∈ batch → lambda_candidate lambda_column r = None) →
  value_of (LambdaBound.scan lambda_column) batch = no_extrema.
Proof.
  intros Hnone. unfold value_of.
  destruct (LambdaBound.scan lambda_column batch) as [e |] eqn:Hscan;
    [| done].
  apply lambda_scan_from_candidates in Hscan.
  by rewrite Hscan, omap_all_none.
Qed.



(** X2. For a batch size of at least 1, every record of the file lies in
    at least one window of the loop, and every window holds exactly
    [min(W, L)] records and ends within the file: no record is left out
    and no window is short, the earliest included. *)
Theorem every_record_is_scanned_and_every_window_is_full
    (W L : nat) :
  (1 ≤ W)%nat →
  (∀ i, (i < L)%nat → ∃ k w, windows W L !! k = Some w ∧ in_window i w) ∧
  (∀ w, w ∈ windows W L →
        (w.2 ≤ L)%nat ∧ (w.2 - w.1 = W `min` L)%nat).
Proof.
  intros HW. split.
  - intros i Hi. by apply window_covering.
  - intros w Hw. by apply windows_elem.
Qed.

Lemma every_record_is_scanned_and_every_window_is_full_witness :
  (∀ i, (i < 13)%nat →
        ∃ k w, windows 12 13 !! k = Some w ∧ in_window i w) ∧
  (∀ w, w ∈ windows 12 13 →
        (w.2 ≤ 13)%nat ∧ (w.2 - w.1 = 12 `min` 13)%nat).
Proof.
  apply (every_record_is_scanned_and_every_window_is_full 12 13). lia.
Defined.

(** X3. When the batch size [W] is smaller than the number [L] of rows
    and does not divide it, the two earliest windows of the loop are
    [rows[L mod W : L mod W + W]] and [rows[0 : W]], and every record of
    index [i] with [L mod W <= i < W] lies in both. *)
Theorem records_scanned_twice (W L : nat) :
  (1 ≤ W)%nat → (W < L)%nat → (L mod W ≠ 0)%nat →
  windows W L !! (L / W - 1)%nat = Some ((L mod W)%nat, (L mod W + W)%nat) ∧
  windows W L !! (L / W)%nat = Some (0%nat, W) ∧
  (L mod W < W)%nat ∧
  ∀ i, (L mod W ≤ i)%nat → (i < W)%nat →
       in_window i ((L mod W)%nat, (L mod W + W)%nat) ∧
       in_window i (0%nat, W).
Proof.
  intros HW HL Hrem.
  destruct (earliest_window_overlaps W L HW HL Hrem) as (H1 & H2 & H3).
  repeat split; try done; cbn [fst snd]; lia.
Qed.

Lemma records_scanned_twice_witness :
  windows 12 13 !! (13 / 12 - 1)%nat
    = Some ((13 mod 12)%nat, (13 mod 12 + 12)%nat) ∧
  windows 12 13 !! (13 / 12)%nat = Some (0%nat, 12%nat) ∧
  (13 mod 12 < 12)%nat ∧
  ∀ i, (13 mod 12 ≤ i)%nat → (i < 12)%nat →
       in_window i ((13 mod 12)%nat, (13 mod 12 + 12)%nat) ∧
       in_window i (0%nat, 12%nat).
Proof.
  apply (records_scanned_twice 12 13); [lia | lia | by vm_compute].
Defined.

Lemma batch_loop_never_ends scan alpha_value all_rows fuel start results :
  (∀ batch, ∃ e, scan batch = Py.Ok e) → start ≠ 0%nat →
  batch_loop scan alpha_value all_rows 0 fuel start results = None.
Proof.
  intros Hscan Hstart. revert results.
  induction fuel as [| fuel IH]; intros results; [done |].
  cbn [batch_loop]. destruct (Hscan (Py.slice all_rows start
    ((start + 0) `min` length all_rows))) as [e ->].
  destruct (Nat.eqb_spec start 0); [done |].
  rewrite Nat.sub_0_r. apply IH.
Qed.

(** X4. With the batch size 0 and a non-empty file, the window loop of
    summarizeboundratio.py never ends: [batch_start] stays at the number of
    rows, so no amount of fuel lets the loop return, and [process_file]
    has no result. On an empty file it returns the empty list before the
    loop. *)
Theorem batch_size_zero_never_terminates
    (file_rows : list row) (alpha_value : float) :
  file_rows ≠ [] →
  (∀ fuel results,
     batch_loop BoundRatio.scan alpha_value file_rows 0 fuel
       (length file_rows - 0) results = None) ∧
  BoundRatio.process_file file_rows alpha_value 0 = None ∧
  BoundRatio.process_file [] alpha_value 0 = Some [].
Proof.
  intros Hrows.
  assert (Hlen : (length file_rows - 0)%nat ≠ 0%nat).
  { destruct file_rows; [done | simpl; lia]. }
  assert (Hloop : ∀ fuel results,
            batch_loop BoundRatio.scan alpha_value file_rows 0 fuel
              (length file_rows - 0) results = None).
  { intros fuel results. apply batch_loop_never_ends; [| done].
    intros batch. by eexists. }
  split; [exact Hloop |]. split; [| done].
  unfold BoundRatio.process_file, process_rows.
  destruct (Nat.eqb_spec (length file_rows) 0); [lia |]. by rewrite Hloop.
Qed.

Lemma batch_size_zero_never_terminates_witness :
  (∀ fuel results,
     batch_loop BoundRatio.scan 1 Sample.three_rows 0 fuel
       (length Sample.three_rows - 0) results = None) ∧
  BoundRatio.process_file Sample.three_rows 1 0 = None ∧
  BoundRatio.process_file [] 1 0 = Some [].
Proof.
  apply (batch_size_zero_never_terminates Sample.three_rows 1).
  discriminate.
Defined.

(** X5. For a batch size of at least 1, [process_file] of either plotting
    summariser returns; it returns at most one summary per window, that is
    at most [ceil(L / W)] rows; every summary carries the alpha passed in;
    and a file in which no row has both a defined lambda and an integer
    index (the empty file included) gives no summary at all. *)
Theorem summaries_are_at_most_one_per_window
    (file_rows : list row) (alpha_value : float)
    (batch_size : nat) (lambda_column : string) :
  (1 ≤ batch_size)%nat →
  (∃ results,
     BoundRatio.process_file file_rows alpha_value batch_size
       = Some results ∧
     (length results ≤ (length file_rows + batch_size - 1) / batch_size)%nat ∧
     Forall (λ r, alpha r = alpha_value) results ∧
     ((∀ r, r ∈ file_rows → ratio_candidate r = None) →
      results = [])) ∧
  (∃ results,
     LambdaBound.process_file file_rows alpha_value lambda_column
       = Some results ∧
     (length results ≤ (length file_rows + 12 - 1) / 12)%nat ∧
     Forall (λ r, alpha r = alpha_value) results ∧
     ((∀ r, r ∈ file_rows → lambda_candidate lambda_column r = None) →
      results = [])).
Proof.
  intros HW. split.
  - eexists. split.
    { unfold BoundRatio.process_file.
      apply (process_rows_by_windows BoundRatio.scan
               (value_of BoundRatio.scan)); [by intros batch | done]. }
    destruct (emit_windows_bound alpha_value file_rows
                (value_of BoundRatio.scan) []
                (windows batch_size (length file_rows))) as [Hlen Hall].
    rewrite windows_count in Hlen by done.
    split; [done |]. split; [by apply Hall |].
    intros Hnone. apply emit_windows_nothing. intros batch Hsub.
    rewrite ratio_value_of, omap_all_none; [done |].
    intros r Hr. apply Hnone. by apply Hsub.
  - assert (H12 : (1 ≤ LambdaBound.batch_size)%nat)
      by (unfold LambdaBound.batch_size; lia).
    destruct (process_rows_outcome (LambdaBound.scan lambda_column)
                alpha_value file_rows LambdaBound.batch_size H12)
      as [[_ Hrun] | [_ Hrun]].
    { exists []. split; [exact Hrun |]. cbn. split; [lia | done]. }
    eexists. split; [exact Hrun |].
    destruct (emit_windows_bound alpha_value file_rows
                (value_of (LambdaBound.scan lambda_column)) []
                (windows LambdaBound.batch_size (length file_rows)))
      as [Hlen Hall].
    rewrite windows_count in Hlen by done.
    split; [done |]. split; [by apply Hall |].
    intros Hnone. apply emit_windows_nothing. intros batch Hsub.
    apply lambda_value_of. intros r Hr. apply Hnone. by apply Hsub.
Qed.

Lemma summaries_are_at_most_one_per_window_witness :
  (∃ results,
     BoundRatio.process_file Sample.three_rows 1 2 = Some results ∧
     (length results ≤ (length Sample.three_rows + 2 - 1) / 2)%nat ∧
     Forall (λ r, alpha r = 1%float) results ∧
     ((∀ r, r ∈ Sample.three_rows → ratio_candidate r = None) →
      results = [])) ∧
  (∃ results,
     LambdaBound.process_file Sample.three_rows 1 "Lambda_min"
       = Some results ∧
     (length results ≤ (length Sample.three_rows + 12 - 1) / 12)%nat ∧
     Forall (λ r, alpha r = 1%float) results ∧
     ((∀ r, r ∈ Sample.three_rows →
              lambda_candidate "Lambda_min" r = None) →
      results = [])).
Proof.
  apply (summaries_are_at_most_one_per_window Sample.three_rows 1 2
           "Lambda_min").
  lia.
Defined.

Lemma lambda_scan_raises lambda_column bad batch e :
  bad_index lambda_column bad → bad ∈ batch →
  ∃ x, LambdaBound.scan_from lambda_column e batch = Py.Raise x.
Proof.
  intros (Hval & n_val_str & Hstr & Hne & Hint) Hin. revert e.
  induction batch as [| r batch IH]; intros e;
    [by apply elem_of_nil in Hin |].
  cbn [LambdaBound.scan_from].
  apply elem_of_cons in Hin as [<- | Hin].
  - unfold LambdaBound.scan_row.
    destruct (LambdaBound.parse_lambda _); [| done]. rewrite Hstr.
    destruct (Py.truthy _) eqn:Ht;
      [| by apply truthy_false in Ht].
    cbn [negb]. rewrite Hint. by exists Py.ValueError.
  - destruct (LambdaBound.scan_row lambda_column e r) as [e' | x];
      [| by exists x].
    cbn [Py.bind]. by apply IH.
Qed.

(** X6. In summarizelambdabound.py one row whose lambda is defined and
    whose index text ([n_0], or [n_1] when [n_0] is empty) is neither
    empty nor an integer makes [process_file] return the empty list,
    whatever the other rows of the file hold and wherever the row
    stands. *)
Theorem one_bad_index_empties_the_file
    (file_rows : list row) (alpha_value : float)
    (lambda_column : string) (bad : row) :
  bad ∈ file_rows → bad_index lambda_column bad →
  LambdaBound.process_file file_rows alpha_value lambda_column = Some [].
Proof.
  intros Hin Hbad. unfold LambdaBound.process_file.
  apply (process_rows_raises _ _ _ _ bad);
    [unfold LambdaBound.batch_size; lia | done |].
  intros batch Hbatch. by apply lambda_scan_raises with bad.
Qed.

Lemma sample_bad_index :
  bad_index "Lambda_min" (Sample.lambda_row "abc" "1.5").
Proof.
  unfold bad_index. split.
  - by vm_compute.
  - exists "abc". by vm_compute.
Defined.

Lemma one_bad_index_empties_the_file_witness :
  LambdaBound.process_file Sample.bad_index_rows 1 "Lambda_min" = Some [].
Proof.
  apply (one_bad_index_empties_the_file Sample.bad_index_rows 1 "Lambda_min"
           (Sample.lambda_row "abc" "1.5")).
  - left.
  - exact sample_bad_index.
Defined.


(** ** The bracketed nearest selector *)


Lemma first_at_of_NoDup pairs p :
  NoDup pairs.*1 → p ∈ pairs → Spec.first_at pairs p.
Proof.
  intros Hnd (pre & post & ->)%list_elem_of_split.
  exists pre, post. split; [done |]. intros q Hq Heq.
  rewrite fmap_app, fmap_cons in Hnd.
  apply NoDup_app in Hnd as (_ & Hdisj & _).
  apply (Hdisj q.1); [by apply list_elem_of_fmap_2 |].
  rewrite Heq. left.
Qed.

(** X8. The selector does not depend on the order of the pairs: for a
    list whose sample indices are pairwise distinct, every permutation of
    the list gives the same answer at every target. *)
Theorem nearest_ignores_the_order_of_the_pairs
    (pairs pairs' : list (Z * float)) (T : float) :
  NoDup pairs.*1 → pairs ≡ₚ pairs' →
  nearest_lambda_with_bracket pairs T = nearest_lambda_with_bracket pairs' T.
Proof.
  intros Hnd Hperm.
  assert (Hnd' : NoDup pairs'.*1) by (by rewrite <- Hperm).
  assert (Hmem : ∀ q, q ∈ pairs ↔ q ∈ pairs') by (intros q; by rewrite Hperm).
  destruct (nearest_cases pairs T)
    as [[-> Hside] | (b & a & (Hfb & HbT & Hmax) & (Hfa & HaT & Hmin) & ->)].
  - symmetry. apply nearest_none_iff.
    destruct Hside as [Hno | Hno]; [left | right];
      intros q Hq; apply Hno; by apply Hmem.
  - symmetry. apply nearest_of_bracket.
    + split; [| split; [done |]].
      * apply first_at_of_NoDup; [done |]. apply Hmem.
        by apply first_at_elem.
      * intros q Hq. apply Hmax. by apply Hmem.
    + split; [| split; [done |]].
      * apply first_at_of_NoDup; [done |]. apply Hmem.
        by apply first_at_elem.
      * intros q Hq. apply Hmin. by apply Hmem.
Qed.

Lemma nearest_ignores_the_order_of_the_pairs_witness :
  nearest_lambda_with_bracket [(150%Z, 10%float); (250%Z, 20%float)] 200 =
  nearest_lambda_with_bracket [(250%Z, 20%float); (150%Z, 10%float)] 200.
Proof.
  apply (nearest_ignores_the_order_of_the_pairs
           [(150%Z, 10%float); (250%Z, 20%float)]
           [(250%Z, 20%float); (150%Z, 10%float)] 200).
  - cbn. apply NoDup_cons. split.
    + by intros ?%list_elem_of_singleton.
    + apply NoDup_singleton.
  - apply Permutation_swap.
Defined.

(** ** The rows of the cert table *)

Lemma omap_sublist {A B} (f : A → option B) (l1 l2 : list A) :
  l1 `sublist_of` l2 → omap f l1 `sublist_of` omap f l2.
Proof.
  induction 1 as [| x l1 l2 _ IH | x l1 l2 _ IH]; [done | |];
    cbn [omap list_omap]; destruct (f x); try done.
  - by apply sublist_skip.
  - by apply sublist_cons.
Qed.

Lemma rows_alpha_column load ds cert_rows :
  Forall2 (λ d r, Spec.row_of load d r ∧ tail_fields_paired r) ds cert_rows →
  cert_alpha <$> cert_rows = omap (λ d, Py.float (alpha_str d)) ds ∧
  Forall tail_fields_paired cert_rows.
Proof.
  induction 1 as [| d r ds cert_rows [[Ha _] Hp] _ [IH1 IH2]]; [done |].
  cbn [omap list_omap fmap list_fmap]. rewrite Ha. split; [| by constructor].
  cbn. by f_equal.
Qed.

(** X10. In the table a cert builder writes, the alpha column is a
    subsequence of the alphas of the directories in the order [sorted]
    returned them (so there are at most as many rows as directories), and
    in every row the tail mean and the tail spread of a series are blank
    together. *)
Theorem cert_rows_follow_the_directories
    `{sorter : !SortedBuiltin alpha_dir}
    (load : table → Py.result (list (Z * float))) (tail_count : Z)
    (pow2 : float → Py.result float)
    (dirs : list alpha_dir) (cert_rows : list cert_row) :
  cert_main load tail_count pow2 dirs = Py.Written cert_rows →
  ∃ keyed,
    sort_keys dirs = Some keyed ∧
    (cert_alpha <$> cert_rows)
      `sublist_of` omap (λ d, Py.float (alpha_str d)) (sorted keyed) ∧
    (length cert_rows ≤ length dirs)%nat ∧
    Forall tail_fields_paired cert_rows.
Proof.
  intros (keyed & Hkeys & Hperm & _ & Hrows)%cert_main_written.
  exists keyed. split; [done |].
  pose proof (Forall2_length _ _ _ Hrows) as Hlen.
  apply rows_alpha_column in Hrows as [-> Hpaired].
  split; [apply omap_sublist, sublist_filter |]. split; [| done].
  rewrite <- Hlen, <- Hperm. apply length_filter.
Qed.

Lemma cert_rows_follow_the_directories_witness :
  ∃ keyed,
    sort_keys [Sample.dir_one_ratio; Sample.dir_quarter_missing;
               Sample.dir_half_empty] = Some keyed ∧
    (cert_alpha <$> [blank_row 0.5; Sample.row_one])
      `sublist_of`
      omap (λ d, Py.float (alpha_str d)) (insertion_sorted keyed) ∧
    (length [blank_row 0.5; Sample.row_one]
       ≤ length [Sample.dir_one_ratio; Sample.dir_quarter_missing;
                 Sample.dir_half_empty])%nat ∧
    Forall tail_fields_paired [blank_row 0.5; Sample.row_one].
Proof.
  apply (cert_rows_follow_the_directories (sorter := insertion_sorter)
           BoundsCert.load_lambda_pairs 2 (Py.checked_pow2 Sample.square)
           [Sample.dir_one_ratio; Sample.dir_quarter_missing;
            Sample.dir_half_empty]).
  vm_compute. reflexivity.
Defined.

(** ** The audit filter *)

Lemma near_target_nonneg tolerance alpha_val :
  Audit.near_target tolerance alpha_val = true →
  PrimFloat.leb 0 tolerance = true.
Proof.
  unfold Audit.near_target. rewrite existsb_exists.
  intros (t & _ & Ht). by apply abs_leb_nonneg in Ht.
Qed.

Lemma near_target_mono tolerance tolerance' alpha_val :
  PrimFloat.leb tolerance tolerance' = true →
  Audit.near_target tolerance alpha_val = true →
  Audit.near_target tolerance' alpha_val = true.
Proof.
  intros Hle. unfold Audit.near_target. rewrite !existsb_exists.
  intros (t & Hin & Ht). exists t. split; [done |].
  by apply (leb_trans _ tolerance).
Qed.

Lemma audit_selects_mono tolerance tolerance' r :
  PrimFloat.leb tolerance tolerance' = true →
  audit_selects tolerance r = true → audit_selects tolerance' r = true.
Proof.
  intros Hle. unfold audit_selects.
  destruct (get r "alpha" ""); [| done].
  destruct (Py.float _); [by apply near_target_mono | done].
Qed.

Lemma audit_selects_has_alpha tolerance r :
  audit_selects tolerance r = true → is_Some (get r "alpha" "").
Proof. unfold audit_selects. by destruct (get r "alpha" ""). Qed.

Lemma filter_sublist_mono {A} (P Q : A → Prop)
    `{!∀ x, Decision (P x)} `{!∀ x, Decision (Q x)} (l : list A) :
  (∀ x, P x → Q x) → filter P l `sublist_of` filter Q l.
Proof.
  intros HPQ. induction l as [| x l IH]; [done |].
  rewrite !filter_cons. destruct (decide (P x)) as [HP | HP].
  - rewrite decide_True by auto. by apply sublist_skip.
  - destruct (decide (Q x)); [by apply sublist_cons | done].
Qed.

(** X11. Filtering is idempotent: the table the audit filter writes,
    given back to it with the same tolerance, is written again
    unchanged. *)
Theorem audit_filter_is_idempotent
    (tolerance : float) (f : table) names kept :
  Audit.main tolerance (Some f) = Py.Written (names, kept) →
  Audit.main tolerance (Some (Table names kept)) = Py.Written (names, kept).
Proof.
  rewrite !audit_main_cases. cbn zeta. cbn [fieldnames rows].
  destruct (is_nil (fieldnames f)) eqn:Hnames; [done |].
  destruct (decide _) as [Hall |]; [| done].
  destruct (is_nil (filter _ (rows f))) eqn:Hkept; [done |].
  destruct (forallb _ _) eqn:Hwrite; [| done].
  intros [= <- <-]. rewrite Hnames.
  rewrite decide_True; cycle 1.
  { apply Forall_forall. intros r [Hsel _]%list_elem_of_filter.
    by apply (audit_selects_has_alpha tolerance). }
  rewrite list_filter_filter.
  rewrite (list_filter_iff _ (λ r, audit_selects tolerance r = true))
    by tauto.
  by rewrite Hkept, Hwrite.
Qed.

Lemma audit_filter_is_idempotent_witness :
  Audit.main Audit.default_tolerance
    (Some (Table ["alpha"; "L11_lo"]
             [ Sample.cert_line "0.5" "1.00000";
               Sample.cert_line "1" "2.00000" ])) =
  Py.Written (["alpha"; "L11_lo"],
              [ Sample.cert_line "0.5" "1.00000";
                Sample.cert_line "1" "2.00000" ]).
Proof.
  apply (audit_filter_is_idempotent Audit.default_tolerance
           Sample.cert_table).
  exact sample_cert_table_filtered.
Defined.

(** A larger tolerance may match a row the writer refuses. *)
Example larger_tolerance_meets_a_long_row :
  Audit.main Audit.default_tolerance (Some Sample.mixed_table)
    = Py.Written (["alpha"], [Row (<["alpha" := Some "0.5"]> ∅) []]) ∧
  Audit.main 1 (Some Sample.mixed_table) = Py.Uncaught Py.ValueError.
Proof. split; vm_compute; reflexivity. Qed.

(** X12. A larger tolerance keeps at least the same rows: when the filter
    writes a table at one tolerance, then at every larger tolerance it
    writes one with the same field names, of which the first table's rows
    are a subsequence, unless a row that matches there has more fields
    than the header, which ends the run with the [ValueError] of the
    writer. *)
Theorem audit_filter_grows_with_the_tolerance
    (tolerance tolerance' : float) (f : table) names kept :
  PrimFloat.leb tolerance tolerance' = true →
  Audit.main tolerance (Some f) = Py.Written (names, kept) →
  (∃ kept', Audit.main tolerance' (Some f) = Py.Written (names, kept') ∧
            kept `sublist_of` kept') ∨
  (Audit.main tolerance' (Some f) = Py.Uncaught Py.ValueError ∧
   ∃ r, r ∈ rows f ∧ audit_selects tolerance' r = true ∧
        Audit.writable (fieldnames f) r = false).
Proof.
  intros Hle. rewrite !audit_main_cases. cbn zeta.
  destruct (is_nil (fieldnames f)); [done |].
  destruct (decide _) as [Hall |]; [| done].
  pose proof (filter_sublist_mono
                (λ r, audit_selects tolerance r = true)
                (λ r, audit_selects tolerance' r = true) (rows f)
                (λ r, audit_selects_mono _ _ r Hle)) as Hsub.
  destruct (filter _ (rows f)) as [| r rs] eqn:Hkept; [done |].
  destruct (forallb _ (r :: rs)); [| done].
  intros [= <- <-].
  destruct (filter (λ r, audit_selects tolerance' r = true) (rows f))
    as [| r' rs'] eqn:Hkept'.
  { by apply sublist_nil_r in Hsub. }
  cbn [is_nil].
  destruct (forallb _ (r' :: rs')) eqn:Hwrite.
  - left. by eexists.
  - right. split; [done |].
    apply forallb_false_elem in Hwrite as (x & Hx & Hw).
    rewrite <- Hkept' in Hx. apply list_elem_of_filter in Hx as [Hsel Hx].
    by exists x.
Qed.

Lemma audit_filter_grows_with_the_tolerance_witness :
  (∃ kept',
     Audit.main 1 (Some Sample.cert_table)
       = Py.Written (["alpha"; "L11_lo"], kept') ∧
     [ Sample.cert_line "0.5" "1.00000"; Sample.cert_line "1" "2.00000" ]
       `sublist_of` kept') ∨
  (Audit.main 1 (Some Sample.cert_table) = Py.Uncaught Py.ValueError ∧
   ∃ r, r ∈ rows Sample.cert_table ∧ audit_selects 1 r = true ∧
        Audit.writable (fieldnames Sample.cert_table) r = false).
Proof.
  apply (audit_filter_grows_with_the_tolerance Audit.default_tolerance 1
           Sample.cert_table).
  - vm_compute. reflexivity.
  - exact sample_cert_table_filtered.
Defined.

(** X13. With a tolerance that is negative, or NaN, no row can match (an
    absolute difference is never below zero): the audit filter writes
    nothing on any input, and ends with exit status 1 unless a row has no
    alpha field, which ends it with a [TypeError]. *)
Theorem audit_filter_rejects_a_negative_tolerance
    (tolerance : float) (cert_file : option table) :
  PrimFloat.leb 0 tolerance = false →
  (Audit.main tolerance cert_file = Py.Exit1 ∧
   ∀ f, cert_file = Some f → fieldnames f = [] ∨
        Forall (λ r, is_Some (get r "alpha" "")) (rows f)) ∨
  (Audit.main tolerance cert_file = Py.Uncaught Py.TypeError ∧
   ∃ f r, cert_file = Some f ∧ r ∈ rows f ∧ get r "alpha" "" = None).
Proof.
  intros Hneg. destruct cert_file as [f |]; [| left; by split].
  rewrite audit_main_cases. cbn zeta.
  destruct (is_nil (fieldnames f)) eqn:Hnames.
  { left. split; [done |]. intros ? [= <-]. left. by apply is_nil_true. }
  destruct (decide _) as [Hall | Hshort].
  - left. rewrite (proj2 (filter_nil_iff _ (rows f))).
    + split; [done |]. intros ? [= <-]. by right.
    + intros r _ Hsel. unfold audit_selects in Hsel.
      destruct (get r "alpha" ""); [| done].
      destruct (Py.float _); [| done].
      apply near_target_nonneg in Hsel. congruence.
  - right. split; [done |].
    apply not_Forall_Exists in Hshort; [| apply _].
    apply Exists_exists in Hshort as (r & Hr & Hnone).
    exists f, r. split; [done |]. split; [done |].
    destruct (get r "alpha" "") eqn:Hg; [| done].
    exfalso. apply Hnone. cbn beta. rewrite Hg. by eexists.
Qed.

Lemma audit_filter_rejects_a_negative_tolerance_witness :
  (Audit.main (-1) (Some Sample.cert_table) = Py.Exit1 ∧
   ∀ f, Some Sample.cert_table = Some f → fieldnames f = [] ∨
        Forall (λ r, is_Some (get r "alpha" "")) (rows f)) ∨
  (Audit.main (-1) (Some Sample.cert_table) = Py.Uncaught Py.TypeError ∧
   ∃ f r, Some Sample.cert_table = Some f ∧ r ∈ rows f ∧
          get r "alpha" "" = None).
Proof.
  apply (audit_filter_rejects_a_negative_tolerance (-1)
           (Some Sample.cert_table)).
  vm_compute. reflexivity.
Defined.

(** ** The four parsers and the loaders of the cert builders *)

Lemma lstrip_chars_fixed cs :
  (∀ c cs', cs = c :: cs' → Py.is_space c = false) → Py.lstrip_chars cs = cs.
Proof.
  destruct cs as [| c cs']; [done |]. intros H. simpl.
  by rewrite (H c cs' eq_refl).
Qed.

Lemma lstrip_chars_head cs c cs' :
  Py.lstrip_chars cs = c :: cs' → Py.is_space c = false.
Proof.
  induction cs as [| a cs IH]; [done |]. simpl.
  destruct (Py.is_space a) eqn:Ha; [done |]. by intros [= <- <-].
Qed.

Lemma lstrip_chars_suffix cs : ∃ pre, cs = pre ++ Py.lstrip_chars cs.
Proof.
  induction cs as [| a cs [pre IH]]; [by exists [] |]. simpl.
  destruct (Py.is_space a); [| by exists []].
  exists (a :: pre). simpl. by f_equal.
Qed.

Lemma strip_chars_idemp cs :
  Py.strip_chars (Py.strip_chars cs) = Py.strip_chars cs.
Proof.
  unfold Py.strip_chars.
  pose proof (lstrip_chars_head cs) as Hhead.
  destruct (lstrip_chars_suffix (rev (Py.lstrip_chars cs))) as [pre Hpre].
  pose proof (lstrip_chars_head (rev (Py.lstrip_chars cs))) as Hhead'.
  set (a := Py.lstrip_chars cs) in *.
  set (b := Py.lstrip_chars (rev a)) in *.
  assert (Hfix : Py.lstrip_chars (rev b) = rev b).
  { apply lstrip_chars_fixed. intros c cs' Hrev.
    apply (f_equal (@rev ascii)) in Hrev. rewrite rev_involutive in Hrev.
    cbn [rev] in Hrev.
    apply (f_equal (@rev ascii)) in Hpre. rewrite rev_involutive in Hpre.
    rewrite Hrev, !rev_app_distr in Hpre. cbn [rev app] in Hpre.
    rewrite rev_involutive in Hpre. by apply (Hhead c _ Hpre). }
  rewrite Hfix, rev_involutive. f_equal.
  apply lstrip_chars_fixed. intros c cs' Hb. by apply (Hhead' c cs' Hb).
Qed.

Lemma strip_idemp s : Py.strip (Py.strip s) = Py.strip s.
Proof.
  unfold Py.strip.
  by rewrite list_ascii_of_string_of_list_ascii, strip_chars_idemp.
Qed.

Lemma strip_empty_truthy s :
  Py.truthy (Py.strip s) = negb (String.eqb (Py.strip s) "").
Proof. by destruct (Py.strip s). Qed.

(** X14. Each parser of the cert builders is the parser of the same
    flavour of the plotting summarisers applied to the stripped text:
    [parse_float] of summarizeboundscert.py is [parse_float] of
    summarizeboundratio.py after [strip], and [parse_float] of
    summarizelambdaboundcert.py is [parse_lambda] of
    summarizelambdabound.py after [strip]. On a text that is not stripped
    they differ: a number followed by the character of code 28 is read by
    the cert builder and by neither plotting summariser, and the sentinel
    ["0.000000"] after a space is the number 0 for [parse_lambda] and
    undefined for the cert builder. *)
Theorem cert_parsers_are_the_plotting_parsers_after_strip :
  (∀ v, BoundsCert.parse_float v = BoundRatio.parse_float (Py.strip <$> v)) ∧
  (∀ v, LambdaBoundCert.parse_float v =
        LambdaBound.parse_lambda (Py.strip <$> v)) ∧
  Py.strip Sample.padded_with_a_separator = "1.5" ∧
  BoundsCert.parse_float (Some Sample.padded_with_a_separator) = Some 1.5%float ∧
  LambdaBoundCert.parse_float (Some Sample.padded_with_a_separator)
    = Some 1.5%float ∧
  BoundRatio.parse_float (Some Sample.padded_with_a_separator) = None ∧
  LambdaBound.parse_lambda (Some Sample.padded_with_a_separator) = None ∧
  LambdaBound.parse_lambda (Some " 0.000000") = Some 0%float ∧
  LambdaBoundCert.parse_float (Some " 0.000000") = None.
Proof.
  split; [| split; [| repeat split; vm_compute; reflexivity]].
  - intros [s |]; [| done]. cbn [fmap option_fmap option_map].
    unfold BoundsCert.parse_float, BoundRatio.parse_float.
    rewrite strip_idemp, strip_empty_truthy, negb_involutive.
    by destruct (String.eqb (Py.strip s) "").
  - intros [s |]; [| done]. cbn [fmap option_fmap option_map].
    unfold LambdaBoundCert.parse_float, LambdaBound.parse_lambda.
    rewrite strip_idemp, strip_empty_truthy, negb_involutive.
    by destruct (String.eqb (Py.strip s) "").
Qed.

(** The sibling loaders drop a row that yields no pair and nothing else:
    the series is the list of the pairs of the rows, in file order. *)
Lemma lambda_cert_loader_by_row lambda_col n_cols file_rows pairs :
  foldl (LambdaBoundCert.load_row lambda_col n_cols) pairs file_rows =
  pairs ++ omap (lambda_cert_pair lambda_col n_cols) file_rows.
Proof.
  revert pairs. induction file_rows as [| r file_rows IH]; intros pairs.
  - simpl. by rewrite app_nil_r.
  - cbn [foldl omap list_omap]. rewrite IH.
    unfold LambdaBoundCert.load_row, lambda_cert_pair.
    destruct (LambdaBoundCert.parse_float _) as [v |]; [| done].
    destruct (LambdaBoundCert.first_int _ _) as [n |]; [| done].
    simpl. by rewrite <- app_assoc.
Qed.

Lemma bounds_cert_loader_by_row file_rows pairs :
  Forall (λ r, is_Some (get r "n" "")) file_rows →
  BoundsCert.load_rows pairs file_rows =
  Py.Ok (pairs ++ omap bounds_cert_pair file_rows).
Proof.
  intros Hall. revert pairs.
  induction Hall as [| r file_rows [n_field Hn] _ IH]; intros pairs.
  - simpl. by rewrite app_nil_r.
  - cbn [BoundsCert.load_rows omap list_omap].
    unfold BoundsCert.load_row, bounds_cert_pair. rewrite Hn.
    cbn [default].
    destruct (BoundsCert.parse_float _) as [v |]; cbn [Py.bind]; [| apply IH].
    destruct (Py.truthy _); cbn [negb Py.bind]; [| apply IH].
    destruct (Py.int _) as [n |]; cbn [Py.bind fmap option_fmap option_map];
      [| apply IH].
    rewrite IH. by rewrite <- app_assoc.
Qed.

Lemma bounds_cert_loader_raises file_rows pairs :
  Exists (λ r, get r "n" "" = None) file_rows →
  BoundsCert.load_rows pairs file_rows = Py.Raise Py.AttributeError.
Proof.
  intros Hex. revert pairs.
  induction Hex as [r file_rows Hn | r file_rows _ IH]; intros pairs.
  - cbn [BoundsCert.load_rows]. unfold BoundsCert.load_row. by rewrite Hn.
  - cbn [BoundsCert.load_rows]. unfold BoundsCert.load_row.
    destruct (get r "n" "") as [n_field |]; [| done].
    destruct (BoundsCert.parse_float _) as [v |]; cbn [Py.bind]; [| apply IH].
    destruct (Py.truthy _); cbn [negb Py.bind]; [| apply IH].
    destruct (Py.int _) as [n |]; cbn [Py.bind]; apply IH.
Qed.

Lemma first_int_head r n_cols :
  LambdaBoundCert.first_int r n_cols =
  head (omap (λ col, Py.int (LambdaBoundCert.index_text r col)) n_cols).
Proof.
  induction n_cols as [| col n_cols IH]; [done |].
  cbn [LambdaBoundCert.first_int omap list_omap].
  destruct (Py.truthy (LambdaBoundCert.index_text r col)) eqn:Ht.
  - by destruct (Py.int _).
  - by rewrite (int_of_empty _ Ht).
Qed.

Lemma detect_columns_filter fields :
  LambdaBoundCert.detect_columns fields =
  (head (filter (.∈ fields) ["Lambda_min"; "Lambda_max"]),
   filter (.∈ fields) ["n_0"; "n_1"; "n"]).
Proof.
  unfold LambdaBoundCert.detect_columns, LambdaBoundCert.has.
  rewrite !filter_cons, !filter_nil.
  repeat case_bool_decide; repeat case_decide; done.
Qed.

(** X15. The loaders of the cert builders are maps over the rows of the
    file, in file order. In summarizelambdaboundcert.py a row gives a pair
    when its lambda column (Lambda_min when the header has it, otherwise
    Lambda_max) parses and one of the index columns n_0, n_1, n of the
    header holds, once stripped, an integer; the index is read from the
    first such column; this loader never raises. In
    summarizeboundscert.py a row gives a pair when its lambda parses and
    its stripped n is an integer, and the loader raises an
    [AttributeError] exactly when a row is too short to have its n
    field. *)
Theorem cert_series_row_by_row (f : table) :
  LambdaBoundCert.load_lambda_pairs f =
    Py.Ok
      (omap (λ r,
               lambda_col ←
                 head (filter (.∈ fieldnames f) ["Lambda_min"; "Lambda_max"]);
               lambda_val ← LambdaBoundCert.parse_float (get r lambda_col "");
               n_val ← head (omap (λ col,
                                     Py.int (LambdaBoundCert.index_text r col))
                                  (filter (.∈ fieldnames f)
                                          ["n_0"; "n_1"; "n"]));
               Some (n_val, lambda_val))
            (rows f)) ∧
  (Forall (λ r, is_Some (get r "n" "")) (rows f) →
   BoundsCert.load_lambda_pairs f =
     Py.Ok
       (omap (λ r,
                lambda_val ← BoundsCert.parse_float (get r "lambda" "");
                n_str ← get r "n" "";
                n_val ← Py.int (Py.strip n_str);
                Some (n_val, lambda_val))
             (rows f))) ∧
  (Exists (λ r, get r "n" "" = None) (rows f) →
   BoundsCert.load_lambda_pairs f = Py.Raise Py.AttributeError).
Proof.
  split; [| split].
  - unfold LambdaBoundCert.load_lambda_pairs.
    rewrite detect_columns_filter.
    destruct (head (filter (.∈ fieldnames f) ["Lambda_min"; "Lambda_max"]))
      as [lambda_col |]; cbn [mbind option_bind].
    + destruct (filter (.∈ fieldnames f) ["n_0"; "n_1"; "n"])
        as [| c cs] eqn:Hcols.
      * cbn [omap list_omap head]. f_equal.
        induction (rows f) as [| r rs IH]; [done |].
        cbn [omap list_omap]. rewrite <- IH.
        by destruct (LambdaBoundCert.parse_float _).
      * rewrite lambda_cert_loader_by_row. cbn [app]. f_equal.
        apply list_omap_ext, Forall2_same_length_lookup_2; [done |].
        intros i r r' Hr Hr'. rewrite Hr in Hr'.
        injection Hr' as <-. unfold lambda_cert_pair.
        rewrite first_int_head.
        destruct (LambdaBoundCert.parse_float _); cbn [mbind option_bind];
          [| done].
        by destruct (head _).
    + f_equal. induction (rows f) as [| r rs IH]; [done |].
      cbn [omap list_omap]. by rewrite <- IH.
  - intros Hall. unfold BoundsCert.load_lambda_pairs.
    rewrite bounds_cert_loader_by_row by done. cbn [app]. f_equal.
    apply list_omap_ext, Forall2_same_length_lookup_2; [done |].
    intros i r r' Hr Hr'. rewrite Hr in Hr'. injection Hr' as <-.
    rewrite Forall_forall in Hall.
    destruct (Hall r (list_elem_of_lookup_2 _ _ _ Hr)) as [n_field Hn].
    unfold bounds_cert_pair. rewrite Hn. cbn [default id].
    destruct (BoundsCert.parse_float _); cbn [mbind option_bind]; [| done].
    destruct (Py.truthy (Py.strip n_field)) eqn:Ht.
    + by destruct (Py.int _).
    + by rewrite (int_of_empty _ Ht).
  - apply bounds_cert_loader_raises.
Qed.

(** ** The alpha grid and the drivers of the plotting summarisers *)

Lemma power_of_2_alphas_values :
  POWER_OF_2_ALPHAS =
  [ 0.0009765625; 0.001953125; 0.00390625; 0.0078125; 0.015625; 0.03125;
    0.0625; 0.125; 0.25; 0.5; 1 ]%float.
Proof. vm_compute. reflexivity. Qed.

Lemma format_alpha_on_the_grid str :
  Forall (λ a, Py.float (format_alpha str a) = Some a) POWER_OF_2_ALPHAS.
Proof.
  rewrite power_of_2_alphas_values.
  repeat apply List.Forall_cons; [.. | apply List.Forall_nil];
    vm_compute; reflexivity.
Qed.

Lemma power_of_2_alphas_ascending : StronglySorted float_lt POWER_OF_2_ALPHAS.
Proof.
  rewrite power_of_2_alphas_values.
  repeat first [ apply SSorted_cons | apply SSorted_nil
               | apply List.Forall_cons | apply List.Forall_nil ];
    vm_compute; reflexivity.
Qed.

Lemma power_of_2_alphas_numbers : Forall float_number POWER_OF_2_ALPHAS.
Proof.
  rewrite power_of_2_alphas_values.
  repeat apply List.Forall_cons; [.. | apply List.Forall_nil];
    vm_compute; reflexivity.
Qed.

(** X16. On the grid of the plotting summarisers (the powers of two from
    1/1024 up to 1, strictly ascending after the [reverse()]),
    [format_alpha] never takes its [str] fallback and gives text that
    [float] reads back as the same alpha; every alpha of the grid is one of
    the target alphas of the audit filter. *)
Theorem format_alpha_round_trips_on_the_grid (str : float → string) :
  Forall (λ a, Py.float (format_alpha str a) = Some a) POWER_OF_2_ALPHAS ∧
  StronglySorted float_lt POWER_OF_2_ALPHAS ∧
  head POWER_OF_2_ALPHAS = Some 0.0009765625%float ∧
  last POWER_OF_2_ALPHAS = Some 1%float ∧
  POWER_OF_2_ALPHAS ⊆ Audit.TARGET_ALPHAS.
Proof.
  split; [apply format_alpha_on_the_grid |].
  split; [apply power_of_2_alphas_ascending |].
  rewrite power_of_2_alphas_values. split; [done |]. split; [done |].
  replace Audit.TARGET_ALPHAS with
    [ 1; 0.5; 0.25; 0.125; 0.0625; 0.03125; 0.015625; 0.0078125;
      0.00390625; 0.001953125; 0x1.172b83c7d40fcp-10; 0.0009765625 ]%float
    by (vm_compute; reflexivity).
  intros a Ha.
  repeat (apply elem_of_cons in Ha as [-> | Ha]; [set_solver |]).
  by apply elem_of_nil in Ha.
Qed.

Lemma ascending_non_decreasing (l : list float) :
  StronglySorted float_lt l → StronglySorted float_le l.
Proof.
  induction 1 as [| x l Hl IH Hx]; constructor; [exact IH |].
  eapply Forall_impl; [exact Hx |]. intros y. apply ltb_leb.
Qed.

Lemma same_alpha_sorted a (results : list summary) :
  float_number a →
  Forall (λ r, alpha r = a) results →
  StronglySorted float_le (alpha <$> results).
Proof.
  intros Ha. induction 1 as [| r rs Hr Hrs IHrs]; [constructor |].
  cbn [fmap list_fmap]. constructor; [exact IHrs |].
  apply Forall_fmap. eapply Forall_impl; [exact Hrs |].
  intros r' Hr'. cbn. rewrite Hr, Hr'. by apply leb_refl.
Qed.

Section PlottingFacts.

Variable str : float → string.
Variable process_file : list row → float → option (list summary).
Variable output : string → option directory.
Variable file_pattern : string.

Lemma collect_all_none grid :
  foldl (collect str process_file output file_pattern) None grid = None.
Proof. by induction grid. Qed.

Lemma collect_step acc a :
  collect str process_file output file_pattern (Some acc) a = None ∨
  ∃ results,
    collect str process_file output file_pattern (Some acc) a
      = Some (acc ++ results) ∧
    (results = [] ∨ ∃ file_rows, process_file file_rows a = Some results).
Proof.
  unfold collect. cbn [mbind option_bind].
  destruct (output _) as [alpha_dir |];
    [| right; exists []; by rewrite app_nil_r; auto].
  destruct (alpha_dir _) as [file_rows |];
    [| right; exists []; by rewrite app_nil_r; auto].
  destruct (process_file file_rows a) as [results |] eqn:Hres;
    cbn [mbind option_bind]; [| by left].
  right. exists results. split; [done |]. right. by exists file_rows.
Qed.

Hypothesis process_file_alpha :
  ∀ file_rows a results,
    process_file file_rows a = Some results →
    Forall (λ r, alpha r = a) results.

Lemma collect_fold grid acc out :
  foldl (collect str process_file output file_pattern) (Some acc) grid
    = Some out →
  ∃ rest, out = acc ++ rest ∧
          Forall (λ r, alpha r ∈ grid) rest ∧
          (StronglySorted float_le grid → Forall float_number grid →
           StronglySorted float_le (alpha <$> rest)).
Proof.
  revert acc. induction grid as [| a grid IH]; intros acc.
  - intros [= <-]. exists []. rewrite app_nil_r. do 2 (split; [done |]).
    intros _ _. constructor.
  - cbn [foldl].
    destruct (collect_step acc a) as [Hnone | (results & Hsome & Hres)].
    { by rewrite Hnone, collect_all_none. }
    rewrite Hsome. intros (rest & -> & Hin & Hsorted)%IH.
    assert (Ha : Forall (λ r, alpha r = a) results).
    { destruct Hres as [-> | (file_rows & Hres)]; [done |].
      by apply (process_file_alpha file_rows). }
    exists (results ++ rest). split; [by rewrite app_assoc |]. split.
    + apply Forall_app. split.
      * eapply Forall_impl; [exact Ha |]. intros r ->. by left.
      * eapply Forall_impl; [exact Hin |]. intros r Hr. by right.
    + intros [Hgrid Hle]%StronglySorted_inv [Hnum Hnums]%Forall_cons.
      rewrite fmap_app.
      apply StronglySorted_app_2; [| | by apply Hsorted].
      * intros x y (r & -> & Hr)%list_elem_of_fmap
                   (r' & -> & Hr')%list_elem_of_fmap.
        rewrite Forall_forall in Ha. rewrite (Ha r Hr).
        rewrite Forall_forall in Hin. rewrite Forall_forall in Hle.
        by apply Hle, Hin.
      * by apply (same_alpha_sorted a).
Qed.

Hypothesis process_file_returns :
  ∀ file_rows a, is_Some (process_file file_rows a).

Lemma collect_fold_returns grid acc :
  is_Some (foldl (collect str process_file output file_pattern) (Some acc)
                 grid).
Proof.
  revert acc. induction grid as [| a grid IH]; intros acc; [done |].
  cbn [foldl].
  destruct (collect_step acc a) as [Hnone | (results & -> & _)];
    [| apply IH].
  unfold collect in Hnone. cbn [mbind option_bind] in Hnone.
  destruct (output _) as [alpha_dir |]; [| done].
  destruct (alpha_dir _) as [file_rows |]; [| done].
  destruct (process_file_returns file_rows a) as [results Hres].
  by rewrite Hres in Hnone.
Qed.

(** What both [main] functions do with a placeholder in the pattern and a
    [process_file] that returns summaries carrying the alpha passed in. *)
Lemma write_collected :
  ∃ o,
    write_results <$> collect_all str process_file output file_pattern
      = Some o ∧
    match o with
    | Py.Written out =>
        out ≠ [] ∧
        Forall (λ r, alpha r ∈ POWER_OF_2_ALPHAS) out ∧
        StronglySorted float_le (alpha <$> out)
    | Py.Exit1 => True
    | Py.Uncaught _ => False
    end.
Proof.
  unfold collect_all.
  destruct (collect_fold_returns POWER_OF_2_ALPHAS []) as [out Hout].
  rewrite Hout. cbn [fmap option_fmap option_map]. eexists. split; [done |].
  unfold write_results. destruct out as [| r out]; [done |]. cbn [is_nil].
  destruct (collect_fold _ _ _ Hout) as (rest & Heq & Hin & Hsorted).
  cbn [app] in Heq. subst rest. split; [done |]. split; [done |].
  apply Hsorted;
    [apply ascending_non_decreasing, power_of_2_alphas_ascending
    | apply power_of_2_alphas_numbers].
Qed.

End PlottingFacts.

Lemma process_rows_alpha scan alpha_value all_rows batch_size results :
  process_rows scan alpha_value all_rows batch_size = Some results →
  Forall (λ r, alpha r = alpha_value) results.
Proof.
  intros Hres%process_rows_from_windows.
  eapply Forall_impl; [exact Hres |].
  by intros r (start & stop & e & _ & _ & ->).
Qed.

(** X17. [main] of summarizelambdabound.py always ends, and never on an
    exception: it writes a summary or exits with status 1. What it writes
    is never empty, every row carries an alpha of the grid, and the alpha
    column is in non-decreasing order. Without the directory [output/],
    without the placeholder in the pattern, or without [lambdaboundmin]
    or [lambdaboundmax] in it, nothing is written. *)
Theorem lambdabound_main_writes_an_ascending_summary
    (str : float → string) (output_dir : option (string → option directory))
    (file_pattern : string) :
  ∃ o,
    lambdabound_main str output_dir file_pattern = Some o ∧
    match o with
    | Py.Written out =>
        out ≠ [] ∧
        Forall (λ r, alpha r ∈ POWER_OF_2_ALPHAS) out ∧
        StronglySorted float_le (alpha <$> out) ∧
        is_Some output_dir ∧
        contains "--=ALPHA=--" file_pattern = true ∧
        (contains "lambdaboundmin" file_pattern = true ∨
         contains "lambdaboundmax" file_pattern = true)
    | Py.Exit1 => True
    | Py.Uncaught _ => False
    end.
Proof.
  unfold lambdabound_main.
  destruct output_dir as [output |]; [| by exists Py.Exit1].
  destruct (contains "--=ALPHA=--" file_pattern) eqn:Hph; cbn [negb];
    [| by exists Py.Exit1].
  assert (Hcol : ∀ column,
            (contains "lambdaboundmin" file_pattern = true ∨
             contains "lambdaboundmax" file_pattern = true) →
            ∃ o,
              write_results <$>
                collect_all str
                  (λ file_rows a,
                     LambdaBound.process_file file_rows a column)
                  output file_pattern = Some o ∧
              match o with
              | Py.Written out =>
                  out ≠ [] ∧
                  Forall (λ r, alpha r ∈ POWER_OF_2_ALPHAS) out ∧
                  StronglySorted float_le (alpha <$> out) ∧
                  is_Some (Some output) ∧
                  true = true ∧
                  (contains "lambdaboundmin" file_pattern = true ∨
                   contains "lambdaboundmax" file_pattern = true)
              | Py.Exit1 => True
              | Py.Uncaught _ => False
              end).
  { intros column Hname.
    destruct (write_collected str
                (λ file_rows a, LambdaBound.process_file file_rows a column)
                output file_pattern) as (o & Ho & Hshape).
    - intros file_rows a results. apply process_rows_alpha.
    - intros file_rows a. apply process_rows_returns.
      unfold LambdaBound.batch_size. lia.
    - exists o. split; [exact Ho |]. destruct o as [out | |]; [| done | done].
      destruct Hshape as (? & ? & ?). by eauto 10. }
  destruct (contains "lambdaboundmin" file_pattern) eqn:Hmin;
    [apply Hcol; by left |].
  destruct (contains "lambdaboundmax" file_pattern) eqn:Hmax;
    [apply Hcol; by right |].
  by exists Py.Exit1.
Qed.

(** X18. With a batch size of at least 1, [main] of summarizeboundratio.py
    always ends, and never on an exception; what it writes is never empty,
    every row carries an alpha of the grid, the alpha column is in
    non-decreasing order, and the pattern has the placeholder. *)
Theorem boundratio_main_writes_an_ascending_summary
    (str : float → string) (output : string → option directory)
    (file_pattern : string) (batch_size : nat) :
  (1 ≤ batch_size)%nat →
  ∃ o,
    boundratio_main str output file_pattern batch_size = Some o ∧
    match o with
    | Py.Written out =>
        out ≠ [] ∧
        Forall (λ r, alpha r ∈ POWER_OF_2_ALPHAS) out ∧
        StronglySorted float_le (alpha <$> out) ∧
        contains "--=ALPHA=--" file_pattern = true
    | Py.Exit1 => True
    | Py.Uncaught _ => False
    end.
Proof.
  intros Hsize. unfold boundratio_main.
  destruct (contains "--=ALPHA=--" file_pattern) eqn:Hph; cbn [negb];
    [| by exists Py.Exit1].
  destruct (write_collected str
              (λ file_rows a, BoundRatio.process_file file_rows a batch_size)
              output file_pattern) as (o & Ho & Hshape).
  - intros file_rows a results. apply process_rows_alpha.
  - intros file_rows a. by apply process_rows_returns.
  - exists o. split; [exact Ho |]. destruct o as [out | |]; [| done | done].
    destruct Hshape as (? & ? & ?). by eauto 10.
Qed.

Lemma boundratio_main_writes_an_ascending_summary_witness :
  boundratio_main (λ _, "") Sample.output_with_alpha_one
    "boundratiomin--=ALPHA=--v.csv" 2
    = Some (Py.Written
              [ Summary 1 (Some 2%Z) (Some 1.5%float)
                          (Some 2%Z) (Some 1.5%float);
                Summary 1 (Some 2%Z) (Some 1.5%float)
                          (Some 2%Z) (Some 1.5%float) ]) ∧
  ∃ o,
    boundratio_main (λ _, "") Sample.output_with_alpha_one
      "boundratiomin--=ALPHA=--v.csv" 2 = Some o ∧
    match o with
    | Py.Written out =>
        out ≠ [] ∧
        Forall (λ r, alpha r ∈ POWER_OF_2_ALPHAS) out ∧
        StronglySorted float_le (alpha <$> out) ∧
        contains "--=ALPHA=--" "boundratiomin--=ALPHA=--v.csv" = true
    | Py.Exit1 => True
    | Py.Uncaught _ => False
    end.
Proof.
  split; [vm_compute; reflexivity |].
  apply (boundratio_main_writes_an_ascending_summary
           (λ _, "") Sample.output_with_alpha_one
           "boundratiomin--=ALPHA=--v.csv" 2).
  lia.
Defined.

Lemma ratio_process_file_zero file_rows a :
  BoundRatio.process_file file_rows a 0 =
  if is_nil file_rows then Some [] else None.
Proof.
  destruct file_rows as [| r file_rows]; [done |].
  unfold BoundRatio.process_file, process_rows. cbn [is_nil length Nat.eqb].
  rewrite batch_loop_never_ends; [done | | done].
  intros batch. by eexists.
Qed.

Lemma collect_fold_zero str output file_pattern grid :
  (foldl (collect str
            (λ file_rows a, BoundRatio.process_file file_rows a 0)
            output file_pattern) (Some []) grid = None ∧
   ∃ a alpha_dir row file_rows,
     a ∈ grid ∧
     output ("alpha-" +:+ format_alpha str a) = Some alpha_dir ∧
     alpha_dir (replace "--=ALPHA=--" ("-" +:+ format_alpha str a +:+ "-")
                        file_pattern) = Some (row :: file_rows)) ∨
  (foldl (collect str
            (λ file_rows a, BoundRatio.process_file file_rows a 0)
            output file_pattern) (Some []) grid = Some [] ∧
   ∀ a alpha_dir file_rows,
     a ∈ grid →
     output ("alpha-" +:+ format_alpha str a) = Some alpha_dir →
     alpha_dir (replace "--=ALPHA=--" ("-" +:+ format_alpha str a +:+ "-")
                        file_pattern) = Some file_rows →
     file_rows = []).
Proof.
  induction grid as [| a grid IH].
  { right. split; [done |]. by intros a alpha_dir file_rows ?%elem_of_nil. }
  cbn [foldl]. unfold collect at 2 4. cbn [mbind option_bind].
  destruct (output ("alpha-" +:+ format_alpha str a)) as [alpha_dir |]
    eqn:Hdir.
  - destruct (alpha_dir _) as [file_rows |] eqn:Hfile.
    + rewrite ratio_process_file_zero.
      destruct file_rows as [| row file_rows];
        cbn [is_nil mbind option_bind app].
      * destruct IH as [(-> & b & d & r & rs & Hb & Hrest) |
                        (-> & Hrest)]; [left | right]; (split; [done |]).
        -- exists b, d, r, rs. split; [by right | done].
        -- intros b d rs [-> | Hb]%elem_of_cons Hd Hrs.
           ++ rewrite Hdir in Hd. injection Hd as <-.
              rewrite Hfile in Hrs. by injection Hrs as <-.
           ++ by apply (Hrest b d rs).
      * left. split; [apply collect_all_none |].
        exists a, alpha_dir, row, file_rows. split; [by left | done].
    + destruct IH as [(-> & b & d & r & rs & Hb & Hrest) |
                      (-> & Hrest)]; [left | right]; (split; [done |]).
      * exists b, d, r, rs. split; [by right | done].
      * intros b d rs [-> | Hb]%elem_of_cons Hd Hrs.
        -- rewrite Hdir in Hd. injection Hd as <-. by rewrite Hfile in Hrs.
        -- by apply (Hrest b d rs).
  - destruct IH as [(-> & b & d & r & rs & Hb & Hrest) |
                    (-> & Hrest)]; [left | right]; (split; [done |]).
    + exists b, d, r, rs. split; [by right | done].
    + intros b d rs [-> | Hb]%elem_of_cons Hd Hrs.
      * by rewrite Hdir in Hd.
      * by apply (Hrest b d rs).
Qed.

(** X19. With [--batch-size 0], [main] of summarizeboundratio.py never
    writes a summary: it either does not end or exits with status 1. It
    does not end exactly when the pattern has the placeholder and one of
    the files it finds for the grid has a data row. *)
Theorem boundratio_main_with_batch_size_zero
    (str : float → string) (output : string → option directory)
    (file_pattern : string) :
  (boundratio_main str output file_pattern 0 = None ∨
   boundratio_main str output file_pattern 0 = Some Py.Exit1) ∧
  (boundratio_main str output file_pattern 0 = None ↔
   contains "--=ALPHA=--" file_pattern = true ∧
   ∃ a alpha_dir row file_rows,
     a ∈ POWER_OF_2_ALPHAS ∧
     output ("alpha-" +:+ format_alpha str a) = Some alpha_dir ∧
     alpha_dir (replace "--=ALPHA=--" ("-" +:+ format_alpha str a +:+ "-")
                        file_pattern) = Some (row :: file_rows)).
Proof.
  unfold boundratio_main.
  destruct (contains "--=ALPHA=--" file_pattern); cbn [negb].
  - unfold collect_all.
    destruct (collect_fold_zero str output file_pattern POWER_OF_2_ALPHAS)
      as [(-> & Hex) | (-> & Hall)].
    + split; [by left |]. done.
    + split; [by right |]. split; [done |].
      intros (_ & a & d & r & rs & Ha & Hd & Hrs).
      by specialize (Hall a d (r :: rs) Ha Hd Hrs).
  - split; [by right |]. split; [done | by intros [? _]].
Qed.


(** ** Tail statistics *)

(** X9. For a count of at least one, the tail statistics depend only on
    the metrics of the last [K] pairs: two series with the same last [K]
    metrics, whatever their sample indices and their earlier pairs, give
    the same mean and the same spread, or raise the same exception. *)
Theorem tail_stats_depends_on_the_last_values
    (pow2 : float → Py.result float) (pairs pairs' : list (Z * float))
    (K : Z) :
  (1 <= K)%Z →
  (K <= Z.of_nat (length pairs))%Z → (K <= Z.of_nat (length pairs'))%Z →
  Spec.last_values pairs (Z.to_nat K) = Spec.last_values pairs' (Z.to_nat K) →
  tail_stats pow2 pairs K = tail_stats pow2 pairs' K.
Proof.
  intros HK Hlen Hlen' Hlast.
  rewrite !tail_stats_unfold by lia. cbv zeta. by rewrite Hlast.
Qed.

Lemma tail_stats_depends_on_the_last_values_witness :
  tail_stats (Py.checked_pow2 Sample.square)
    [(1%Z, 7%float); (2%Z, 3%float); (3%Z, 5%float)] 2 =
  tail_stats (Py.checked_pow2 Sample.square)
    [(10%Z, 3%float); (20%Z, 5%float)] 2.
Proof.
  apply (tail_stats_depends_on_the_last_values
           (Py.checked_pow2 Sample.square)
           [(1%Z, 7%float); (2%Z, 3%float); (3%Z, 5%float)]
           [(10%Z, 3%float); (20%Z, 5%float)] 2).
  - lia.
  - simpl. lia.
  - simpl. lia.
  - reflexivity.
Defined.

(** ** The effective local moduli of the paper scripts *)

Lemma pred_product_app l k :
  pred_product (l ++ k) = (pred_product l * pred_product k)%Z.
Proof.
  induction l as [| q l IH]; cbn [app pred_product foldr].
  - fold (pred_product k). lia.
  - fold (pred_product (l ++ k)) (pred_product l). rewrite IH. lia.
Qed.

Lemma filter_ext_elem {A} (P Q : A → Prop)
    `{!∀ x, Decision (P x)} `{!∀ x, Decision (Q x)} (l : list A) :
  (∀ x, x ∈ l → P x ↔ Q x) → filter P l = filter Q l.
Proof.
  induction l as [| x l IH]; intros Hext; [done |].
  rewrite !filter_cons.
  rewrite IH by (intros y Hy; apply Hext; by right).
  destruct (decide (P x)) as [HP | HP].
  - rewrite decide_True; [done |]. apply Hext; [by left | done].
  - rewrite decide_False; [done |]. rewrite <- Hext; [done | by left].
Qed.

Lemma efflocmod_fold base l :
  StronglySorted Z.lt l →
  (∀ p, (foldl (Table1.efflocmod_step base) (∅, 1%Z) l).1 !! p =
        if bool_decide (p ∈ l)
        then Some (pred_product (from_base_to base p l)) else None) ∧
  (foldl (Table1.efflocmod_step base) (∅, 1%Z) l).2 =
    pred_product (filter (λ q, (base ≤ q)%Z) l).
Proof.
  induction l as [| x l IH] using rev_ind; intros Hsorted.
  { split; [| done]. intros p. cbn [foldl fst].
    rewrite lookup_empty, bool_decide_eq_false_2; [done |].
    apply not_elem_of_nil. }
  apply StronglySorted_app in Hsorted as (Hlt & Hl & _).
  assert (Hx : ∀ q, q ∈ l → (q < x)%Z).
  { intros q Hq. apply Hlt; [done |]. by apply list_elem_of_singleton. }
  destruct (IH Hl) as [Hmap Hprod]. clear IH.
  rewrite foldl_snoc.
  set (st := foldl (Table1.efflocmod_step base) (∅, 1%Z) l) in *.
  assert (Hnotin : x ∉ l) by (intros Hin%Hx; lia).
  assert (Hbelow : (x ≤ base)%Z → filter (λ q, (base ≤ q)%Z) l = []).
  { intros Hle. apply filter_nil_iff. intros q Hq%Hx. lia. }
  assert (Hupto : from_base_to base x l = filter (λ q, (base ≤ q)%Z) l).
  { apply filter_ext_elem. intros q Hq%Hx. lia. }
  assert (Hvalue :
    (Table1.efflocmod_step base st x).2 =
      pred_product (filter (λ q, (base ≤ q)%Z) (l ++ [x])) ∧
    (Table1.efflocmod_step base st x).1 =
      <[x := pred_product (from_base_to base x (l ++ [x]))]> st.1).
  { unfold from_base_to. rewrite !filter_app, !pred_product_app.
    rewrite !filter_cons, !filter_nil. fold (from_base_to base x l).
    rewrite Hupto. unfold Table1.efflocmod_step.
    destruct (Z.ltb_spec x base) as [Hlo | Hhi].
    - rewrite !decide_False by lia. rewrite Hbelow by lia.
      cbn [fst snd pred_product foldr]. rewrite Hprod, Hbelow by lia.
      done.
    - destruct (Z.eqb_spec x base) as [-> | Hne].
      + rewrite !decide_True by lia. rewrite Hbelow by lia.
        cbn [fst snd pred_product foldr].
        by replace (1 * ((base - 1) * 1))%Z with (base - 1)%Z by lia.
      + rewrite !decide_True by lia.
        cbn [fst snd pred_product foldr]. rewrite Hprod.
        fold (pred_product (filter (λ q, (base ≤ q)%Z) l)).
        by replace ((x - 1) * 1)%Z with (x - 1)%Z by lia. }
  destruct Hvalue as [Hsnd Hfst]. split; [| exact Hsnd].
  intros p. rewrite Hfst.
  destruct (decide (p = x)) as [-> | Hne].
  - rewrite lookup_insert_eq, bool_decide_eq_true_2; [done |].
    apply elem_of_app. right. by apply list_elem_of_singleton.
  - rewrite lookup_insert_ne by done. rewrite Hmap.
    destruct (decide (p ∈ l)) as [Hin | Hout].
    + rewrite !bool_decide_eq_true_2;
        [| apply elem_of_app; by left | done].
      do 2 f_equal. unfold from_base_to.
      rewrite filter_app, filter_cons, filter_nil.
      rewrite decide_False by (apply Hx in Hin; lia).
      by rewrite app_nil_r.
    + rewrite !bool_decide_eq_false_2; [done | | done].
      intros [? | ?%list_elem_of_singleton]%elem_of_app; done.
Qed.

(** X20. For a strictly increasing list of primes, the dictionary
    [calculate_efflocmod] of table1_efflocmod.py returns has exactly the
    listed primes as keys, and the entry of [p] is the product of [q - 1]
    over the listed primes [q] with [base_prime <= q <= p] (the empty
    product 1 below the base prime), whether or not the base prime is in
    the list. *)
Theorem efflocmod_is_the_product_from_the_base
    (primes : list Z) (base_prime p : Z) :
  StronglySorted Z.lt primes →
  Table1.calculate_efflocmod primes base_prime !! p =
  if bool_decide (p ∈ primes)
  then Some (pred_product (from_base_to base_prime p primes))
  else None.
Proof.
  intros Hsorted. unfold Table1.calculate_efflocmod.
  by destruct (efflocmod_fold base_prime primes Hsorted) as [-> _].
Qed.

Lemma table1_primes_ascending : StronglySorted Z.lt Table1.primes.
Proof.
  unfold Table1.primes.
  repeat first [ apply SSorted_cons | apply SSorted_nil
               | apply List.Forall_cons | apply List.Forall_nil ]; lia.
Qed.

Lemma efflocmod_is_the_product_from_the_base_witness :
  Table1.calculate_efflocmod Table1.primes 5 !! 13%Z =
  if bool_decide (13%Z ∈ Table1.primes)
  then Some (pred_product (from_base_to 5 13 Table1.primes))
  else None.
Proof.
  apply (efflocmod_is_the_product_from_the_base Table1.primes 5 13).
  exact table1_primes_ascending.
Defined.

(** X21. The check at the end of [main] of table1_efflocmod.py succeeds:
    every listed prime has an entry in [expected] and in both computed
    dictionaries (no [KeyError]), [all_match] stays true, and the entry of
    [p] in [expected] is the pair of the products of [q - 1] over the
    listed primes from 3 to [p] and from 5 to [p]. *)
Theorem table1_expected_values_match :
  Table1.all_match = Some true ∧
  Forall (λ p, Table1.expected !! p =
               Some (pred_product (from_base_to 3 p Table1.primes),
                     pred_product (from_base_to 5 p Table1.primes)))
         Table1.primes.
Proof.
  split; [by vm_compute |].
  unfold Table1.primes.
  repeat first [ apply List.Forall_cons | apply List.Forall_nil ];
    by vm_compute.
Qed.

(** X22. [calculate_efflocmod_values] of table3_c_values.py lists, for the
    primes of [PRIMES] from the starting prime on (3 when 3 divides n,
    otherwise 5) and in their order, the product of [q - 1] over the
    primes from the starting prime up to that prime; each value is the one
    [calculate_efflocmod] of table1_efflocmod.py gives for the same
    primes; and the list for the case 3 | n is the pair (3, 2) followed by
    the other list with every value doubled. *)
Theorem table3_moduli_agree_with_table1 (three_divides_n : bool) :
  Table3.calculate_efflocmod_values three_divides_n =
    (λ p, (p, pred_product
                (from_base_to (if three_divides_n then 3 else 5) p
                              Table3.PRIMES))) <$>
    filter (λ p, ((if three_divides_n then 3 else 5) ≤ p)%Z) Table3.PRIMES ∧
  Forall (λ pv,
            Table1.calculate_efflocmod Table3.PRIMES
              (if three_divides_n then 3 else 5) !! pv.1 = Some pv.2)
         (Table3.calculate_efflocmod_values three_divides_n) ∧
  Table3.calculate_efflocmod_values true =
    (3, 2)%Z ::
    ((λ pv, (pv.1, 2 * pv.2)%Z) <$> Table3.calculate_efflocmod_values false).
Proof.
  split; [by destruct three_divides_n; vm_compute |].
  split; [| by vm_compute].
  destruct three_divides_n; vm_compute;
    repeat first [ apply List.Forall_cons | apply List.Forall_nil ];
    reflexivity.
Qed.
